(** * re2o user import script: a shallow embedding of [import_script.py]

    The script reads a CSV file of new members, derives a username for each
    row, resolves the room, checks that no username is taken, creates the
    accounts, fires a password-reset request for each of them and, when the
    [ARTICLES] list is not empty, creates an invoice with its line items.
    Everything runs inside Django's [transaction.atomic].

    Python strings are modelled as [string], integers as [Z], exceptions as
    values of [exn] carried by a state-and-error monad whose state is the
    database and whose output is the sequence of observable effects. *)

From Stdlib Require Import List String Ascii ZArith Bool Arith Lia DecimalString Sorted.
Import ListNotations.
Open Scope string_scope.
Open Scope list_scope.

(** ** Exceptions and results *)

Inductive exn : Type :=
| IndexError
| ValueError
| FileNotFoundError
| DoesNotExist (model : string)
| MultipleObjectsReturned (model : string)
| IntegrityError
| Exception (msg : string).

Inductive Result (A : Type) : Type :=
| Ok (a : A)
| Raise (e : exn).
Arguments Ok {A} a.
Arguments Raise {A} e.

Definition is_ok {A} (r : Result A) : bool :=
  match r with Ok _ => true | Raise _ => false end.

(** ** The Python string and list operations the script uses *)

Module PyStr.

(** [s.split(sep)] for a separator of one character. *)
Fixpoint split (sep : ascii) (s : string) : list string :=
  match s with
  | EmptyString => [EmptyString]
  | String c s' =>
      if Ascii.eqb c sep then EmptyString :: split sep s'
      else match split sep s' with
           | [] => [String c EmptyString]
           | w :: ws => String c w :: ws
           end
  end.

(** [s.replace(old, new)] for [old] and [new] of one character. *)
Fixpoint replace (old new : ascii) (s : string) : string :=
  match s with
  | EmptyString => EmptyString
  | String c s' =>
      String (if Ascii.eqb c old then new else c) (replace old new s')
  end.

(** [s.index(sub)] for [sub] of one character: the position of its first
    occurrence, [ValueError] when there is none. *)
Fixpoint index (sub : ascii) (s : string) : Result nat :=
  match s with
  | EmptyString => Raise ValueError
  | String c s' =>
      if Ascii.eqb c sub then Ok 0
      else match index sub s' with
           | Ok n => Ok (S n)
           | Raise e => Raise e
           end
  end.

(** [s[:n]] and [s[n:]] for a non-negative [n]. *)
Fixpoint slice_to (n : nat) (s : string) : string :=
  match n, s with
  | S n', String c s' => String c (slice_to n' s')
  | _, _ => EmptyString
  end.

Fixpoint slice_from (n : nat) (s : string) : string :=
  match n, s with
  | S n', String _ s' => slice_from n' s'
  | _, _ => s
  end.

(** [sep.join(l)]. *)
Fixpoint join (sep : string) (l : list string) : string :=
  match l with
  | [] => EmptyString
  | [x] => x
  | x :: rest => (x ++ sep ++ join sep rest)%string
  end.

(** Membership of a character. *)
Fixpoint mem (c : ascii) (s : string) : bool :=
  match s with
  | EmptyString => false
  | String d s' => Ascii.eqb d c || mem c s'
  end.

End PyStr.

(** [l[i]] on a Python list, for a non-negative [i]. *)
Definition getitem {A} (l : list A) (i : nat) : Result A :=
  match nth_error l i with
  | Some a => Ok a
  | None => Raise IndexError
  end.

(** [x in l] for a list of strings. *)
Definition str_in (x : string) (l : list string) : bool :=
  existsb (String.eqb x) l.

(** ** [CSVUser.get_username] *)

Definition get_username (email : string) : Result string :=
  match getitem (PyStr.split "@" email) 0 with
  | Ok local_part => Ok (PyStr.replace "." "-" local_part)
  | Raise e => Raise e
  end.

(** ** The database

    The tables belong to the re2o models the script imports.  A table is the
    list of its rows in the order the database returns them; a foreign key
    holds the primary key of the row it points to.  [Adherent] is a kind of
    [User]: both managers read the same table, [Adherent.objects] only its
    adherent rows. *)

Inductive UserState : Type :=
| STATE_ACTIVE
| STATE_DISABLED
| STATE_ARCHIVE
| STATE_NOT_YET_ACTIVE
| STATE_FULL_ARCHIVE.

Inductive EmailState : Type :=
| EMAIL_STATE_VERIFIED
| EMAIL_STATE_UNVERIFIED
| EMAIL_STATE_PENDING.

Module Building.
Record t : Type := mk { pk : Z; name : string }.
End Building.

Module Room.
Record t : Type := mk { pk : Z; building : Z; name : string }.
End Room.

Module School.
Record t : Type := mk { pk : Z; name : string }.
End School.

Module Paiement.
Record t : Type := mk { pk : Z; moyen : string }.
End Paiement.

Module Article.
Record t : Type := mk {
  pk : Z;
  name : string;
  prix : Z;
  duration_connection : Z;
  duration_days_connection : Z;
  duration_membership : Z;
  duration_days_membership : Z }.
End Article.

Module User.
Record t : Type := mk {
  pk : Z;
  is_adherent : bool;
  surname : string;
  pseudo : string;
  email : string;
  school : Z;
  comment : string;
  state : UserState;
  email_state : EmailState;
  name : string;
  room : option Z }.

(** [previous_user.room = None] *)
Definition set_room (r : option Z) (u : t) : t :=
  mk (pk u) (is_adherent u) (surname u) (pseudo u) (email u) (school u)
     (comment u) (state u) (email_state u) (name u) r.
End User.

Module Facture.
Record t : Type := mk {
  pk : Z;
  user : Z;
  paiement : Z;
  valid : bool;
  control : bool }.

Definition set_valid (b : bool) (f : t) : t :=
  mk (pk f) (user f) (paiement f) b (control f).

Definition set_control (b : bool) (f : t) : t :=
  mk (pk f) (user f) (paiement f) (valid f) b.
End Facture.

Module Vente.
(** An instance built by [Vente(...)] has no primary key until it is saved. *)
Record t : Type := mk {
  pk : option Z;
  facture : Z;
  name : string;
  prix : Z;
  duration_connection : Z;
  duration_days_connection : Z;
  duration_membership : Z;
  duration_days_membership : Z;
  number : Z }.

Definition set_pk (k : option Z) (v : t) : t :=
  mk k (facture v) (name v) (prix v) (duration_connection v)
     (duration_days_connection v) (duration_membership v)
     (duration_days_membership v) (number v).

Definition set_facture (f : Z) (v : t) : t :=
  mk (pk v) f (name v) (prix v) (duration_connection v)
     (duration_days_connection v) (duration_membership v)
     (duration_days_membership v) (number v).
End Vente.

Record DB : Type := mkDB {
  buildings : list Building.t;
  rooms : list Room.t;
  schools : list School.t;
  paiements : list Paiement.t;
  articles : list Article.t;
  users : list User.t;
  factures : list Facture.t;
  ventes : list Vente.t }.

Definition with_users (us : list User.t) (db : DB) : DB :=
  mkDB (buildings db) (rooms db) (schools db) (paiements db) (articles db)
       us (factures db) (ventes db).

Definition with_factures (fs : list Facture.t) (db : DB) : DB :=
  mkDB (buildings db) (rooms db) (schools db) (paiements db) (articles db)
       (users db) fs (ventes db).

Definition with_ventes (vs : list Vente.t) (db : DB) : DB :=
  mkDB (buildings db) (rooms db) (schools db) (paiements db) (articles db)
       (users db) (factures db) vs.

(** The primary key an insertion assigns: one more than the largest in use. *)
Definition next_pk (pks : list Z) : Z :=
  (1 + fold_right Z.max 0 pks)%Z.

Definition opt_pks (l : list (option Z)) : list Z :=
  flat_map (fun o => match o with Some k => [k] | None => [] end) l.

(** ** Observable effects *)

Record Response : Type := mkResponse { status_code : Z }.

Inductive Query : Type :=
| QSchool (pk : Z)
| QPaiement (pk : Z)
| QBuilding (name : string)
| QRoom (building : Z) (name : string)
| QAdherentPseudoIn (usernames : list string)
| QAdherentRoom (room : Z)
| QUserPseudo (pseudo : string)
| QArticle (pk : Z).

Inductive Event : Type :=
| EPrint (line : string)
| EOpen (path : string)
| ESelect (q : Query)
| EInsertUser (u : User.t)
| EUpdateUser (u : User.t)
| EInsertFacture (f : Facture.t)
| EUpdateFacture (f : Facture.t)
| EInsertVente (v : Vente.t)
| EUpdateVente (v : Vente.t)
| EPost (path : string) (data : list (string * string)) (r : Result Response).

(** ** The monad: database state, raised exceptions, emitted effects *)

Definition M (A : Type) : Type := DB -> Result A * DB * list Event.

Definition ret {A} (a : A) : M A := fun db => (Ok a, db, []).

Definition bind {A B} (m : M A) (k : A -> M B) : M B :=
  fun db =>
    match m db with
    | (Ok a, db1, t1) =>
        match k a db1 with
        | (r, db2, t2) => (r, db2, t1 ++ t2)
        end
    | (Raise e, db1, t1) => (Raise e, db1, t1)
    end.

Definition raise {A} (e : exn) : M A := fun db => (Raise e, db, []).

Definition lift {A} (r : Result A) : M A := fun db => (r, db, []).

Definition emit (e : Event) : M unit := fun db => (Ok tt, db, [e]).

Notation "x <- m ;; k" := (bind m (fun x => k))
  (at level 61, m at next level, right associativity).
Notation "m ;; k" := (bind m (fun _ => k))
  (at level 61, right associativity).

Definition result {A} (o : Result A * DB * list Event) : Result A := fst (fst o).
Definition final_db {A} (o : Result A * DB * list Event) : DB := snd (fst o).
Definition trace {A} (o : Result A * DB * list Event) : list Event := snd o.

(** [for x in l: body(x)] *)
Fixpoint for_each {A} (l : list A) (body : A -> M unit) : M unit :=
  match l with
  | [] => ret tt
  | x :: rest => body x ;; for_each rest body
  end.

(** [print(line)] *)
Definition print (line : string) : M unit := emit (EPrint line).

(** [@transaction.atomic]: when the block raises, the database goes back to
    what it was on entry and the exception propagates; what was printed or
    sent meanwhile stays. *)
Definition atomic {A} (m : M A) : M A :=
  fun db =>
    match m db with
    | (Ok a, db1, t) => (Ok a, db1, t)
    | (Raise e, _, t) => (Raise e, db, t)
    end.

(** ** The ORM calls the script makes *)

(** [Model.objects.get(...)] on the rows that match. *)
Definition objects_get {R} (model : string) (matching : list R) : Result R :=
  match matching with
  | [] => Raise (DoesNotExist model)
  | [r] => Ok r
  | _ :: _ :: _ => Raise (MultipleObjectsReturned model)
  end.

Definition select {R} (q : Query) (rows : DB -> list R) : M (list R) :=
  fun db => (Ok (rows db), db, [ESelect q]).

Definition School_get (pk : Z) : M School.t :=
  found <- select (QSchool pk)
             (fun db => filter (fun s => Z.eqb (School.pk s) pk) (schools db)) ;;
  lift (objects_get "School" found).

Definition Paiement_get (pk : Z) : M Paiement.t :=
  found <- select (QPaiement pk)
             (fun db => filter (fun p => Z.eqb (Paiement.pk p) pk) (paiements db)) ;;
  lift (objects_get "Paiement" found).

Definition Building_get (name : string) : M Building.t :=
  found <- select (QBuilding name)
             (fun db => filter (fun b => String.eqb (Building.name b) name)
                               (buildings db)) ;;
  lift (objects_get "Building" found).

Definition Room_get (building : Building.t) (name : string) : M Room.t :=
  found <- select (QRoom (Building.pk building) name)
             (fun db => filter (fun r => Z.eqb (Room.building r) (Building.pk building)
                                         && String.eqb (Room.name r) name)
                               (rooms db)) ;;
  lift (objects_get "Room" found).

Definition Article_get (pk : Z) : M Article.t :=
  found <- select (QArticle pk)
             (fun db => filter (fun a => Z.eqb (Article.pk a) pk) (articles db)) ;;
  lift (objects_get "Article" found).

Definition User_get (pseudo : string) : M User.t :=
  found <- select (QUserPseudo pseudo)
             (fun db => filter (fun u => String.eqb (User.pseudo u) pseudo)
                               (users db)) ;;
  lift (objects_get "User" found).

(** [Adherent.objects.filter(pseudo__in=usernames)], evaluated. *)
Definition Adherent_filter_pseudo_in (usernames : list string) : M (list User.t) :=
  select (QAdherentPseudoIn usernames)
    (fun db => filter (fun u => User.is_adherent u
                                && str_in (User.pseudo u) usernames)
                      (users db)).

Definition room_is (room : Z) (u : User.t) : bool :=
  match User.room u with
  | Some k => Z.eqb k room
  | None => false
  end.

(** [Adherent.objects.filter(room=room)], evaluated. *)
Definition Adherent_filter_room (room : Room.t) : M (list User.t) :=
  select (QAdherentRoom (Room.pk room))
    (fun db => filter (fun u => User.is_adherent u && room_is (Room.pk room) u)
                      (users db)).

(** [instance.save()] on a row that is already stored. *)
Definition User_save (u : User.t) : M unit :=
  fun db =>
    (Ok tt,
     with_users (map (fun r => if Z.eqb (User.pk r) (User.pk u) then u else r)
                     (users db)) db,
     [EUpdateUser u]).

Definition Facture_save (f : Facture.t) : M unit :=
  fun db =>
    (Ok tt,
     with_factures (map (fun r => if Z.eqb (Facture.pk r) (Facture.pk f) then f else r)
                        (factures db)) db,
     [EUpdateFacture f]).

(** [Facture.objects.create(user=..., paiement=...)]; [valid] and [control]
    start false. *)
Definition Facture_create (user : User.t) (paiement : Paiement.t) : M Facture.t :=
  fun db =>
    let f := Facture.mk (next_pk (map Facture.pk (factures db)))
                        (User.pk user) (Paiement.pk paiement) false false in
    (Ok f, with_factures (factures db ++ [f]) db, [EInsertFacture f]).

(** [p.save()] on a line item: an insertion when it has no primary key yet. *)
Definition Vente_save (v : Vente.t) : M unit :=
  fun db =>
    match Vente.pk v with
    | None =>
        let row := Vente.set_pk
                     (Some (next_pk (opt_pks (map Vente.pk (ventes db))))) v in
        (Ok tt, with_ventes (ventes db ++ [row]) db, [EInsertVente row])
    | Some k =>
        (Ok tt,
         with_ventes (map (fun r => match Vente.pk r with
                                    | Some k' => if Z.eqb k' k then v else r
                                    | None => r
                                    end) (ventes db)) db,
         [EUpdateVente v])
    end.

(** ** Parameters and environment of the script *)

Record Settings : Type := mkSettings {
  PATH : string;
  SCHOOL_ID : Z;
  ARTICLES : list (Z * Z);
  PAYMENT_METHOD : Z;
  COMMENT : string }.

(** The values written in the script. *)
Definition script_settings : Settings :=
  mkSettings "./list-users.csv" 1%Z [(1%Z, 4%Z)] 1%Z "Example".

(** What the script does not decide itself: the rows [csv.reader] yields for
    the file at a path (or the error opening it raises), the response the
    test client hands back for a request (or the exception of the view, which
    the client lets through), and whether the schema's integrity constraints
    accept a new account row. *)
Record Env : Type := mkEnv {
  settings : Settings;
  csv_reader : string -> Result (list (list string));
  client_post : string -> list (string * string) -> DB -> Result Response;
  integrity : DB -> User.t -> bool }.

Module CSVUser.
Record t : Type := mk {
  first_name : string;
  last_name : string;
  email : string;
  username : string;
  room : Room.t }.
End CSVUser.

(** [str(n)] for a natural number. *)
Definition str_of_nat (n : nat) : string :=
  NilEmpty.string_of_uint (Nat.to_uint n).

(** ** The script *)

(** [CSVUser.get_room] *)
Definition get_room (room : string) : M Room.t :=
  index <- lift (PyStr.index " " room) ;;
  let building_name := PyStr.slice_to index room in
  let name := PyStr.slice_from (index + 1) room in
  building <- Building_get building_name ;;
  Room_get building name.

(** [CSVUser.__init__] *)
Definition CSVUser_init (last_name first_name email room : string) : M CSVUser.t :=
  username <- lift (get_username email) ;;
  room <- get_room room ;;
  ret (CSVUser.mk first_name last_name email username room).

(** The loop of [read_file] over the rows, [users] being the list built so
    far. *)
Fixpoint read_rows (data : list (list string)) (users : list CSVUser.t)
  : M (list CSVUser.t) :=
  match data with
  | [] => ret users
  | row :: rest =>
      c0 <- lift (getitem row 0) ;;
      c1 <- lift (getitem row 1) ;;
      c2 <- lift (getitem row 2) ;;
      c3 <- lift (getitem row 3) ;;
      user <- CSVUser_init c0 c1 c2 c3 ;;
      read_rows rest (users ++ [user])
  end.

(** [check_constraints] *)
Definition check_constraints (usernames : list string) : M unit :=
  query <- Adherent_filter_pseudo_in usernames ;;
  match query with
  | [] => ret tt
  | _ :: _ =>
      raise (Exception ("The following usernames are not unique : "
                        ++ PyStr.join ", " (map User.pseudo query))%string)
  end.

(** [force_move] *)
Definition force_move (room : Room.t) : M unit :=
  already_in_room <- Adherent_filter_room room ;;
  match already_in_room with
  | [] => ret tt
  | previous_user :: _ => User_save (User.set_room None previous_user)
  end.

(** The inner loop over [ARTICLES] that builds the line items of an invoice. *)
Fixpoint build_purchases (arts : list (Z * Z)) (invoice : Facture.t)
    (purchases : list Vente.t) (total_price : Z) : M (list Vente.t * Z) :=
  match arts with
  | [] => ret (purchases, total_price)
  | art :: rest =>
      article <- Article_get (fst art) ;;
      let quantity := snd art in
      let total_price := (total_price + Article.prix article * quantity)%Z in
      let new_purchase :=
        Vente.mk None (Facture.pk invoice) (Article.name article)
                 (Article.prix article)
                 (Article.duration_connection article)
                 (Article.duration_days_connection article)
                 (Article.duration_membership article)
                 (Article.duration_days_membership article)
                 quantity in
      build_purchases rest invoice (purchases ++ [new_purchase]) total_price
  end.

Section Script.

Variable env : Env.

(** [read_file] *)
Definition read_file : M (list CSVUser.t) :=
  emit (EOpen (PATH (settings env))) ;;
  data <- lift (csv_reader env (PATH (settings env))) ;;
  read_rows data [].

(** [Adherent.objects.create(...)]: the row gets a fresh primary key and is
    stored when the integrity constraints accept it. *)
Definition Adherent_create (surname pseudo email : string) (school : School.t)
    (comment : string) (state : UserState) (email_state : EmailState)
    (name : string) (room : Room.t) : M User.t :=
  fun db =>
    let u := User.mk (next_pk (map User.pk (users db))) true surname pseudo
                     email (School.pk school) comment state email_state name
                     (Some (Room.pk room)) in
    if integrity env db u
    then (Ok u, with_users (users db ++ [u]) db, [EInsertUser u])
    else (Raise IntegrityError, db, []).

(** [Client().post(path, data)] *)
Definition Client_post (path : string) (data : list (string * string))
  : M Response :=
  fun db =>
    let r := client_post env path data db in
    (r, db, [EPost path data r]).

(** Body of the first loop of [transaction]: one account. *)
Definition create_account (school : School.t) (user : CSVUser.t) : M unit :=
  force_move (CSVUser.room user) ;;
  _ <- Adherent_create (CSVUser.last_name user) (CSVUser.username user)
         (CSVUser.email user) school (COMMENT (settings env))
         STATE_ACTIVE EMAIL_STATE_VERIFIED
         (CSVUser.first_name user) (CSVUser.room user) ;;
  ret tt.

(** Body of the second loop: one password reset, its response dropped. *)
Definition reset_password (user : CSVUser.t) : M unit :=
  _ <- Client_post "/users/reset_password/"
         [("pseudo", CSVUser.username user); ("email", CSVUser.email user)] ;;
  ret tt.

(** Body of the third loop: one invoice and its line items. *)
Definition add_subscription (payment : Paiement.t) (user : CSVUser.t) : M unit :=
  user_object <- User_get (CSVUser.username user) ;;
  invoice <- Facture_create user_object payment ;;
  built <- build_purchases (ARTICLES (settings env)) invoice [] 0%Z ;;
  let purchases := fst built in
  Facture_save invoice ;;
  for_each purchases
    (fun p => Vente_save (Vente.set_facture (Facture.pk invoice) p)) ;;
  let invoice := Facture.set_valid true invoice in
  let invoice := Facture.set_control true invoice in
  Facture_save invoice.

(** The body of [transaction], without its decorator. *)
Definition transaction_body : M unit :=
  school <- School_get (SCHOOL_ID (settings env)) ;;
  payment <- Paiement_get (PAYMENT_METHOD (settings env)) ;;
  users <- read_file ;;
  print (str_of_nat (List.length users) ++ " users detected")%string ;;
  print "Verifying that no conflict occurs for usernames" ;;
  check_constraints (map CSVUser.username users) ;;
  print "Usernames OK" ;;
  print "Creating accounts" ;;
  for_each users (create_account school) ;;
  print "Accountts created" ;;
  print "Reseting password" ;;
  for_each users reset_password ;;
  print "Passwords reset" ;;
  match ARTICLES (settings env) with
  | [] => ret tt
  | _ :: _ =>
      print "Adding subscriptions" ;;
      for_each users (add_subscription payment) ;;
      print "Subscriptions created"
  end ;;
  print "All went well".

(** [transaction], decorated with [@transaction.atomic]. *)
Definition transaction : M unit := atomic transaction_body.

End Script.

(** ** A small database and CSV file to run the script on *)

Module Sample.

Definition old_member : User.t :=
  User.mk 1 true "Martin" "alice-martin" "alice.martin@example.org" 1
          "2019" STATE_ACTIVE EMAIL_STATE_VERIFIED "Alice" (Some 10%Z).

Definition second_occupant : User.t :=
  User.mk 2 true "Petit" "bob-petit" "bob.petit@example.org" 1
          "2020" STATE_DISABLED EMAIL_STATE_PENDING "Bob" (Some 10%Z).

Definition club : User.t :=
  User.mk 3 false "Chess club" "chess" "chess@example.org" 1
          "" STATE_ACTIVE EMAIL_STATE_VERIFIED "" None.

Definition db : DB :=
  mkDB [Building.mk 1 "A"; Building.mk 2 "B"]
       [Room.mk 10 1 "101"; Room.mk 11 1 "102-2"; Room.mk 12 2 "101"]
       [School.mk 1 "ENS"]
       [Paiement.mk 1 "Cheque"]
       [Article.mk 1 "Adhesion" 1000 0 0 1 0]
       [old_member; second_occupant; club]
       []
       [].

Definition rows : list (list string) :=
  [ ["Doe"; "John"; "john.doe@example.org"; "A 101"];
    ["Roe"; "Jane"; "jane.m.roe@example.org"; "A 102-2"; "ignored"] ].

Definition csv (data : list (list string)) (path : string)
  : Result (list (list string)) :=
  if String.eqb path "./list-users.csv" then Ok data
  else Raise FileNotFoundError.

(** The pseudo of an account is unique. *)
Definition unique_pseudo (d : DB) (u : User.t) : bool :=
  negb (existsb (fun r => String.eqb (User.pseudo r) (User.pseudo u)) (users d)).

(** Test clients: one that answers every request with a redirection, one
    that answers with a server error, one whose view raises. *)
Definition redirect
  : string -> list (string * string) -> DB -> Result Response :=
  fun _ _ _ => Ok (mkResponse 302).

Definition server_error
  : string -> list (string * string) -> DB -> Result Response :=
  fun _ _ _ => Ok (mkResponse 500).

Definition crash
  : string -> list (string * string) -> DB -> Result Response :=
  fun _ _ _ => Raise (Exception "view error").

Definition env : Env := mkEnv script_settings (csv rows) redirect unique_pseudo.

(** A file whose only row takes the pseudo of the club: the check, which
    looks at adherents only, lets it through and the insertion is refused. *)
Definition clash_rows : list (list string) :=
  [ ["Club"; "Chess"; "chess@example.org"; "A 101"] ].

Definition clash_env : Env :=
  mkEnv script_settings (csv clash_rows) redirect unique_pseudo.

(** A file whose row takes the pseudo of an adherent. *)
Definition taken_rows : list (list string) :=
  [ ["Martin"; "Alice"; "alice.martin@example.com"; "B 101"] ].

Definition taken_env : Env :=
  mkEnv script_settings (csv taken_rows) redirect unique_pseudo.

(** A file with a room string that has no space, and one with a short row. *)
Definition no_space_rows : list (list string) :=
  [ ["Doe"; "John"; "john.doe@example.org"; "A101"] ].

Definition no_space_env : Env :=
  mkEnv script_settings (csv no_space_rows) redirect unique_pseudo.

Definition short_rows : list (list string) :=
  [ ["Doe"; "John"; "john.doe@example.org"; "A 101"];
    ["Roe"; "Jane"; "jane.m.roe@example.org"] ].

Definition short_env : Env :=
  mkEnv script_settings (csv short_rows) redirect unique_pseudo.

(** The script with an empty [ARTICLES]. *)
Definition no_article_env : Env :=
  mkEnv (mkSettings "./list-users.csv" 1%Z [] 1%Z "Example")
        (csv rows) redirect unique_pseudo.

(** The users [read_file] builds from [rows]. *)
Definition john : CSVUser.t :=
  CSVUser.mk "John" "Doe" "john.doe@example.org" "john-doe"
             (Room.mk 10 1 "101").

Definition jane : CSVUser.t :=
  CSVUser.mk "Jane" "Roe" "jane.m.roe@example.org" "jane-m-roe"
             (Room.mk 11 1 "102-2").

End Sample.

(** ** Vocabulary of the properties *)

(** [local] is the part of [email] before its first [@], the whole of it when
    it has none. *)
Definition is_local_part (email local : string) : Prop :=
  PyStr.mem "@" local = false /\
  (email = local \/ exists rest, email = (local ++ "@" ++ rest)%string).

(** [u] is [s] with every dot turned into a dash. *)
Definition dots_to_dashes (s u : string) : Prop :=
  String.length u = String.length s /\
  forall i,
    String.get i u =
    option_map (fun c => if Ascii.eqb c "." then "-"%char else c) (String.get i s).

(** The adherents that live in a room, in table order. *)
Definition occupants (room : Room.t) (db : DB) : list User.t :=
  filter (fun u => User.is_adherent u && room_is (Room.pk room) u) (users db).

(** [v] is [u] but for the room. *)
Definition same_but_room (u v : User.t) : Prop :=
  User.pk v = User.pk u /\
  User.is_adherent v = User.is_adherent u /\
  User.surname v = User.surname u /\
  User.pseudo v = User.pseudo u /\
  User.email v = User.email u /\
  User.school v = User.school u /\
  User.comment v = User.comment u /\
  User.state v = User.state u /\
  User.email_state v = User.email_state u /\
  User.name v = User.name u.

(** Kinds of effects. *)
Definition is_db_write (e : Event) : bool :=
  match e with
  | EInsertUser _ | EUpdateUser _ | EInsertFacture _ | EUpdateFacture _
  | EInsertVente _ | EUpdateVente _ => true
  | _ => false
  end.

Definition is_parse (e : Event) : bool :=
  match e with
  | EOpen _ | ESelect (QBuilding _) | ESelect (QRoom _ _) => true
  | _ => false
  end.

Definition is_check (e : Event) : bool :=
  match e with
  | ESelect (QAdherentPseudoIn _) => true
  | _ => false
  end.

Definition is_account_creation (e : Event) : bool :=
  match e with
  | EInsertUser _ => true
  | _ => false
  end.

Definition is_reset (e : Event) : bool :=
  match e with
  | EPost _ _ _ => true
  | _ => false
  end.

Definition is_invoice_write (e : Event) : bool :=
  match e with
  | EInsertFacture _ | EUpdateFacture _ | EInsertVente _ | EUpdateVente _ => true
  | _ => false
  end.

(** The step of the import an effect belongs to; what is printed belongs to
    none. *)
Definition phase (e : Event) : option nat :=
  match e with
  | EPrint _ => None
  | EOpen _ => Some 0
  | ESelect (QSchool _) | ESelect (QPaiement _) => Some 0
  | ESelect (QBuilding _) | ESelect (QRoom _ _) => Some 0
  | ESelect (QAdherentPseudoIn _) => Some 1
  | ESelect (QAdherentRoom _) | EInsertUser _ | EUpdateUser _ => Some 2
  | EPost _ _ _ => Some 3
  | ESelect (QUserPseudo _) | ESelect (QArticle _) => Some 4
  | EInsertFacture _ | EUpdateFacture _ | EInsertVente _ | EUpdateVente _ => Some 4
  end.

Definition in_phase (k : nat) (e : Event) : Prop :=
  phase e = None \/ phase e = Some k.

Definition phase_le (a b : Event) : Prop :=
  forall i j, phase a = Some i -> phase b = Some j -> i <= j.

(** [a] occurs in [t] somewhere before an occurrence of [b]. *)
Definition precedes (t : list Event) (a b : Event) : Prop :=
  exists l1 l2 l3, t = l1 ++ a :: l2 ++ b :: l3.

(** The requests sent, in order. *)
Definition posts_of (t : list Event) : list (string * list (string * string)) :=
  flat_map (fun e => match e with
                     | EPost path data _ => [(path, data)]
                     | _ => []
                     end) t.

(** The reset request of a parsed user. *)
Definition reset_request (u : CSVUser.t) : string * list (string * string) :=
  ("/users/reset_password/",
   [("pseudo", CSVUser.username u); ("email", CSVUser.email u)]).

(** [v] is the line item of invoice [invoice] for the pair [art] of
    [ARTICLES], with the catalog of [db]. *)
Definition line_item (db : DB) (invoice : Z) (art : Z * Z) (v : Vente.t) : Prop :=
  exists a,
    In a (articles db) /\ Article.pk a = fst art /\
    Vente.facture v = invoice /\
    Vente.name v = Article.name a /\
    Vente.prix v = Article.prix a /\
    Vente.duration_connection v = Article.duration_connection a /\
    Vente.duration_days_connection v = Article.duration_days_connection a /\
    Vente.duration_membership v = Article.duration_membership a /\
    Vente.duration_days_membership v = Article.duration_days_membership a /\
    Vente.number v = snd art.

(** [u] is what [read_file] makes of the CSV row [row]. *)
Definition row_user (db : DB) (row : list string) (u : CSVUser.t) : Prop :=
  exists c0 c1 c2 c3 rest,
    row = c0 :: c1 :: c2 :: c3 :: rest /\
    CSVUser.last_name u = c0 /\
    CSVUser.first_name u = c1 /\
    CSVUser.email u = c2 /\
    get_username c2 = Ok (CSVUser.username u) /\
    result (get_room c3 db) = Ok (CSVUser.room u).

(** Properties of a computation, whatever the database it starts from. *)
Definition readonly {A} (m : M A) : Prop :=
  forall db, final_db (m db) = db.

Definition emits (P : Event -> Prop) {A} (m : M A) : Prop :=
  forall db, Forall P (trace (m db)).

Definition maintains (I : DB -> Prop) {A} (m : M A) : Prop :=
  forall db, I db -> I (final_db (m db)).

(** An account row as the import writes it. *)
Definition imported_account (env : Env) (u : User.t) : Prop :=
  User.is_adherent u = true /\
  User.state u = STATE_ACTIVE /\
  User.email_state u = EMAIL_STATE_VERIFIED /\
  User.school u = SCHOOL_ID (settings env) /\
  User.comment u = COMMENT (settings env).

(** Every account row is one the database had before ([old] holds their
    primary keys) or one written the way the import writes it. *)
Definition old_or_imported (old : list Z) (env : Env) (db : DB) : Prop :=
  forall u, In u (users db) -> In (User.pk u) old \/ imported_account env u.

(** A sequence of effects whose steps never go back, all at step [lo] or
    later. *)
Definition staged (lo : nat) (t : list Event) : Prop :=
  StronglySorted phase_le t /\
  Forall (fun e => forall i, phase e = Some i -> lo <= i) t.

(** The part of [transaction] that comes after the password resets, the part
    after the accounts are created, and the part after the uniqueness
    check. *)
Definition after_resets (env : Env) (payment : Paiement.t)
    (users : list CSVUser.t) : M unit :=
  print "Passwords reset" ;;
  match ARTICLES (settings env) with
  | [] => ret tt
  | _ :: _ =>
      print "Adding subscriptions" ;;
      for_each users (add_subscription env payment) ;;
      print "Subscriptions created"
  end ;;
  print "All went well".

Definition after_accounts (env : Env) (payment : Paiement.t)
    (users : list CSVUser.t) : M unit :=
  print "Accountts created" ;;
  print "Reseting password" ;;
  for_each users (reset_password env) ;;
  after_resets env payment users.

Definition after_check (env : Env) (school : School.t) (payment : Paiement.t)
    (users : list CSVUser.t) : M unit :=
  print "Usernames OK" ;;
  print "Creating accounts" ;;
  for_each users (create_account env school) ;;
  after_accounts env payment users.

(** Two runs that end with the same result on the same database. *)
Definition same_outcome {A} (o1 o2 : Result A * DB * list Event) : Prop :=
  result o1 = result o2 /\ final_db o1 = final_db o2.

(** No request is sent. *)
Definition quiet (e : Event) : Prop := is_reset e = false.

(** What is left of the answer to a request when the response is dropped. *)
Definition forget_response (r : Result Response) : Result unit :=
  match r with
  | Ok _ => Ok tt
  | Raise e => Raise e
  end.

(** The test client answers every request with a response. *)
Definition answers (env : Env) : Prop :=
  forall path data db, exists r, client_post env path data db = Ok r.

(** A run that raised before any request was sent, and a run that sent the
    reset requests of the first users of [us], one each, in order: those of
    all of them, unless it raised. *)
Definition stopped_early {A} (o : Result A * DB * list Event) : Prop :=
  posts_of (trace o) = [] /\ exists e, result o = Raise e.

Definition resets_sent (us : list CSVUser.t) {A}
    (o : Result A * DB * list Event) : Prop :=
  posts_of (trace o) = map reset_request us \/
  exists e k,
    result o = Raise e /\ posts_of (trace o) = firstn k (map reset_request us).

Definition runs_staged (lo : nat) {A} (m : M A) : Prop :=
  forall db, staged lo (trace (m db)).

(** No row is written. *)
Definition no_write (e : Event) : Prop := is_db_write e = false.

(** The invoice the import makes for a parsed user, with the accounts of
    [db]. *)
Definition invoice_of (env : Env) (db : DB) (u : CSVUser.t) (f : Facture.t)
  : Prop :=
  (exists account,
      In account (users db) /\
      User.pseudo account = CSVUser.username u /\
      Facture.user f = User.pk account) /\
  Facture.paiement f = PAYMENT_METHOD (settings env) /\
  Facture.valid f = true /\
  Facture.control f = true.

(** Invoices whose primary keys are new: each one larger than those of
    [base] and of the invoices before it. *)
Fixpoint fresh_pks (base : list Z) (fs : list Facture.t) : Prop :=
  match fs with
  | [] => True
  | f :: rest =>
      (forall k, In k base -> (k < Facture.pk f)%Z) /\
      fresh_pks (base ++ [Facture.pk f]) rest
  end.

(** The invoice tables and the catalog of [d] are those of [db]. *)
Definition same_invoice_tables (db d : DB) : Prop :=
  factures d = factures db /\ ventes d = ventes db /\ articles d = articles db.

(** The environment with another test client. *)
Definition with_client
    (c : string -> list (string * string) -> DB -> Result Response)
    (env : Env) : Env :=
  mkEnv (settings env) (csv_reader env) c (integrity env).

(** ** Vocabulary of the further properties *)

(** [v] is the account [u], as it was or with its room taken away. *)
Definition evicted_or_same (u v : User.t) : Prop :=
  v = u \/ v = User.set_room None u.

(** [row] is the account the import writes for the parsed user [u]; its room
    is the one of [u] unless a later row of the file took it. *)
Definition account_of_row (env : Env) (u : CSVUser.t) (row : User.t) : Prop :=
  User.is_adherent row = true /\
  User.surname row = CSVUser.last_name u /\
  User.name row = CSVUser.first_name u /\
  User.pseudo row = CSVUser.username u /\
  User.email row = CSVUser.email u /\
  User.school row = SCHOOL_ID (settings env) /\
  User.comment row = COMMENT (settings env) /\
  User.state row = STATE_ACTIVE /\
  User.email_state row = EMAIL_STATE_VERIFIED /\
  (User.room row = Some (Room.pk (CSVUser.room u)) \/ User.room row = None).

(** The integrity constraints refuse an account whose pseudo is that of an
    account of the database. *)
Definition pseudo_is_unique (env : Env) : Prop :=
  forall db u,
    integrity env db u = true ->
    forall r, In r (users db) -> User.pseudo r <> User.pseudo u.

(** The tables the import only reads are, in [d], those of [db]. *)
Definition same_reference_tables (db d : DB) : Prop :=
  buildings d = buildings db /\
  rooms d = rooms db /\
  schools d = schools db /\
  paiements d = paiements db /\
  articles d = articles db.

(** The lines printed, in order. *)
Definition prints_of (t : list Event) : list string :=
  flat_map (fun e => match e with
                     | EPrint line => [line]
                     | _ => []
                     end) t.

(** Nothing is printed. *)
Definition silent (e : Event) : Prop :=
  match e with
  | EPrint _ => False
  | _ => True
  end.

(** The lines a run prints when it goes to its end, [n] being the number of
    users read. *)
Definition lines_of_a_full_run (env : Env) (n : nat) : list string :=
  [ (str_of_nat n ++ " users detected")%string;
    "Verifying that no conflict occurs for usernames";
    "Usernames OK";
    "Creating accounts";
    "Accountts created";
    "Reseting password";
    "Passwords reset" ]
  ++ match ARTICLES (settings env) with
     | [] => []
     | _ :: _ => ["Adding subscriptions"; "Subscriptions created"]
     end
  ++ ["All went well"].

(** A run that printed the lines [L] and returned, or raised after printing
    only some first lines of [L], not all. *)
Definition printed (L : list string) {A} (o : Result A * DB * list Event)
  : Prop :=
  (exists a, result o = Ok a /\ prints_of (trace o) = L) \/
  (exists e k,
      result o = Raise e /\ k < List.length L /\
      prints_of (trace o) = firstn k L).



(** A file in which two rows share a local part, hence a username. *)
Definition twin_rows : list (list string) :=
  [ ["Roe"; "Jane"; "jane.roe@example.org"; "A 101"];
    ["Roe"; "Jane"; "jane.roe@example.com"; "A 102-2"] ].

Definition twin_env : Env :=
  mkEnv script_settings (Sample.csv twin_rows) Sample.redirect
        Sample.unique_pseudo.

(** The file with no row at all. *)
Definition empty_env : Env :=
  mkEnv script_settings (Sample.csv []) Sample.redirect Sample.unique_pseudo.



(** The script told to sell an article the catalog does not have. *)
Definition no_article_in_catalog_env : Env :=
  mkEnv (mkSettings "./list-users.csv" 1%Z [(9%Z, 1%Z)] 1%Z "Example")
        (Sample.csv Sample.rows) Sample.redirect Sample.unique_pseudo.

(** An effect that is neither a request nor the line that closes the
    resets. *)
Definition before_resets_close (e : Event) : Prop :=
  quiet e /\ e <> EPrint "Passwords reset".

(** A run that has not printed that the passwords are reset, or has sent the
    reset requests of all the users [us]. *)
Definition resets_closed (us : list CSVUser.t) {A}
    (o : Result A * DB * list Event) : Prop :=
  Forall before_resets_close (trace o) \/
  (Forall (fun e => e <> EPrint "Passwords reset") (trace o) /\
   exists e, result o = Raise e) \/
  posts_of (trace o) = map reset_request us.

(** * Properties *)

(** ** Strings *)

Lemma split_cons (sep : ascii) (s : string) :
  exists w ws, PyStr.split sep s = w :: ws.
Proof.
  destruct s as [|c s]; simpl.
  - now exists EmptyString, [].
  - destruct (Ascii.eqb c sep).
    + now exists EmptyString, (PyStr.split sep s).
    + destruct (PyStr.split sep s) as [|w ws].
      * now exists (String c EmptyString), [].
      * now exists (String c w), ws.
Qed.

Lemma split_first (sep : ascii) (s : string) :
  exists w ws,
    PyStr.split sep s = w :: ws /\
    PyStr.mem sep w = false /\
    (s = w \/ exists rest, s = (w ++ String sep rest)%string).
Proof.
  induction s as [|c s IH]; simpl.
  - exists EmptyString, []. auto.
  - destruct (Ascii.eqb c sep) eqn:E.
    + apply Ascii.eqb_eq in E. subst c.
      exists EmptyString, (PyStr.split sep s).
      repeat split; auto. right. now exists s.
    + destruct IH as (w & ws & -> & Hw & Hs).
      exists (String c w), ws. simpl. rewrite E, Hw.
      repeat split; auto.
      destruct Hs as [-> | (rest & ->)]; [now left | right; now exists rest].
Qed.

Lemma replace_length (old new : ascii) (s : string) :
  String.length (PyStr.replace old new s) = String.length s.
Proof. induction s; simpl; congruence. Qed.

Lemma replace_get (old new : ascii) (s : string) (i : nat) :
  String.get i (PyStr.replace old new s) =
  option_map (fun c => if Ascii.eqb c old then new else c) (String.get i s).
Proof.
  revert i. induction s as [|c s IH]; intros [|i]; simpl; auto.
Qed.

Lemma get_username_total (email : string) :
  exists local,
    get_username email = Ok (PyStr.replace "." "-" local) /\
    is_local_part email local.
Proof.
  destruct (split_first "@" email) as (w & ws & E & Hw & Hs).
  exists w. unfold get_username, getitem. rewrite E. simpl.
  split; [reflexivity|]. split; [exact Hw|exact Hs].
Qed.

Lemma index_found (c : ascii) (b n : string) :
  PyStr.mem c b = false ->
  PyStr.index c (b ++ String c n) = Ok (String.length b).
Proof.
  induction b as [|d b IH]; simpl; intros H.
  - now rewrite Ascii.eqb_refl.
  - apply orb_false_iff in H as [Hd Hb]. rewrite Hd, (IH Hb). reflexivity.
Qed.

Lemma index_missing (c : ascii) (s : string) :
  PyStr.mem c s = false -> PyStr.index c s = Raise ValueError.
Proof.
  induction s as [|d s IH]; simpl; intros H; auto.
  apply orb_false_iff in H as [Hd Hs]. now rewrite Hd, (IH Hs).
Qed.

Lemma slice_to_app (b n : string) :
  PyStr.slice_to (String.length b) (b ++ n) = b.
Proof.
  induction b as [|d b IH]; simpl.
  - now destruct n.
  - now rewrite IH.
Qed.

Lemma slice_from_app (b n : string) :
  PyStr.slice_from (String.length b) (b ++ n) = n.
Proof. induction b as [|d b IH]; simpl; auto. Qed.

Lemma slice_from_succ (b n : string) (c : ascii) :
  PyStr.slice_from (String.length b + 1) (b ++ String c n) = n.
Proof.
  induction b as [|d b IH]; simpl; auto.
Qed.

Lemma str_in_In (x : string) (l : list string) :
  str_in x l = true <-> In x l.
Proof.
  unfold str_in. rewrite existsb_exists. split.
  - intros (y & Hy & E). apply String.eqb_eq in E. now subst.
  - intros H. exists x. split; auto. apply String.eqb_refl.
Qed.

(** ** The monad *)

Lemma bind_unfold {A B} (m : M A) (k : A -> M B) (db : DB) :
  bind m k db =
  match result (m db) with
  | Ok a =>
      (result (k a (final_db (m db))),
       final_db (k a (final_db (m db))),
       trace (m db) ++ trace (k a (final_db (m db))))
  | Raise e => (Raise e, final_db (m db), trace (m db))
  end.
Proof.
  unfold bind, result, final_db, trace.
  destruct (m db) as [[[a|e] d1] t1]; simpl; auto.
  destruct (k a d1) as [[r d2] t2]; reflexivity.
Qed.

Lemma bind_Ok_inv {A B} (m : M A) (k : A -> M B) (db : DB) (b : B) :
  result (bind m k db) = Ok b ->
  exists a,
    result (m db) = Ok a /\
    result (k a (final_db (m db))) = Ok b /\
    final_db (bind m k db) = final_db (k a (final_db (m db))) /\
    trace (bind m k db) = trace (m db) ++ trace (k a (final_db (m db))).
Proof.
  rewrite bind_unfold. destruct (result (m db)) as [a|e] eqn:E.
  - intros H. exists a. auto.
  - discriminate.
Qed.

Lemma bind_Raise {A B} (m : M A) (k : A -> M B) (db : DB) (e : exn) :
  result (m db) = Raise e ->
  bind m k db = (Raise e, final_db (m db), trace (m db)).
Proof. intros H. rewrite bind_unfold, H. reflexivity. Qed.

Lemma bind_Ok {A B} (m : M A) (k : A -> M B) (db : DB) (a : A) :
  result (m db) = Ok a ->
  bind m k db =
  (result (k a (final_db (m db))),
   final_db (k a (final_db (m db))),
   trace (m db) ++ trace (k a (final_db (m db)))).
Proof. intros H. rewrite bind_unfold, H. reflexivity. Qed.

Lemma readonly_ret {A} (a : A) : readonly (ret a).
Proof. intros db. reflexivity. Qed.

Lemma readonly_lift {A} (r : Result A) : readonly (lift r).
Proof. intros db. reflexivity. Qed.

Lemma readonly_raise {A} (e : exn) : readonly (@raise A e).
Proof. intros db. reflexivity. Qed.

Lemma readonly_emit (e : Event) : readonly (emit e).
Proof. intros db. reflexivity. Qed.

Lemma readonly_select {R} (q : Query) (rows : DB -> list R) :
  readonly (select q rows).
Proof. intros db. reflexivity. Qed.

Lemma readonly_bind {A B} (m : M A) (k : A -> M B) :
  readonly m -> (forall a, readonly (k a)) -> readonly (bind m k).
Proof.
  intros Hm Hk db. rewrite bind_unfold.
  destruct (result (m db)) as [a|e]; unfold final_db at 1; simpl.
  - now rewrite Hk, Hm.
  - apply Hm.
Qed.

Lemma emits_ret (P : Event -> Prop) {A} (a : A) : emits P (ret a).
Proof. intros db. constructor. Qed.

Lemma emits_lift (P : Event -> Prop) {A} (r : Result A) : emits P (lift r).
Proof. intros db. constructor. Qed.

Lemma emits_raise (P : Event -> Prop) {A} (e : exn) : emits P (@raise A e).
Proof. intros db. constructor. Qed.

Lemma emits_emit (P : Event -> Prop) (e : Event) : P e -> emits P (emit e).
Proof. intros H db. repeat constructor. exact H. Qed.

Lemma emits_select (P : Event -> Prop) {R} (q : Query) (rows : DB -> list R) :
  P (ESelect q) -> emits P (select q rows).
Proof. intros H db. repeat constructor. exact H. Qed.

Lemma emits_bind (P : Event -> Prop) {A B} (m : M A) (k : A -> M B) :
  emits P m -> (forall a, emits P (k a)) -> emits P (bind m k).
Proof.
  intros Hm Hk db. rewrite bind_unfold.
  destruct (result (m db)) as [a|e]; unfold trace at 1; simpl.
  - apply Forall_app. split; [apply Hm | apply Hk].
  - apply Hm.
Qed.

Lemma emits_for_each (P : Event -> Prop) {A} (l : list A) (body : A -> M unit) :
  (forall x, emits P (body x)) -> emits P (for_each l body).
Proof.
  intros H. induction l as [|x l IH]; simpl.
  - apply emits_ret.
  - apply emits_bind; auto.
Qed.

Lemma readonly_for_each {A} (l : list A) (body : A -> M unit) :
  (forall x, readonly (body x)) -> readonly (for_each l body).
Proof.
  intros H. induction l as [|x l IH]; simpl.
  - apply readonly_ret.
  - apply readonly_bind; auto.
Qed.

Lemma atomic_result {A} (m : M A) (db : DB) :
  result (atomic m db) = result (m db).
Proof.
  unfold atomic, result. now destruct (m db) as [[[a|e] d] t].
Qed.

Lemma atomic_trace {A} (m : M A) (db : DB) :
  trace (atomic m db) = trace (m db).
Proof.
  unfold atomic, trace. now destruct (m db) as [[[a|e] d] t].
Qed.

Lemma atomic_Ok {A} (m : M A) (db : DB) (a : A) :
  result (m db) = Ok a -> final_db (atomic m db) = final_db (m db).
Proof.
  unfold atomic, result, final_db.
  destruct (m db) as [[[a'|e] d] t]; simpl; [auto | discriminate].
Qed.

Lemma atomic_Raise {A} (m : M A) (db : DB) (e : exn) :
  result (m db) = Raise e -> final_db (atomic m db) = db.
Proof.
  unfold atomic, result, final_db.
  destruct (m db) as [[[a'|e'] d] t]; simpl; [discriminate | auto].
Qed.

Lemma result_bind {A B} (m : M A) (k : A -> M B) (db : DB) :
  result (bind m k db) =
  match result (m db) with
  | Ok a => result (k a (final_db (m db)))
  | Raise e => Raise e
  end.
Proof. rewrite bind_unfold. now destruct (result (m db)). Qed.

Lemma final_db_bind {A B} (m : M A) (k : A -> M B) (db : DB) :
  final_db (bind m k db) =
  match result (m db) with
  | Ok a => final_db (k a (final_db (m db)))
  | Raise e => final_db (m db)
  end.
Proof. rewrite bind_unfold. now destruct (result (m db)). Qed.

Lemma trace_bind {A B} (m : M A) (k : A -> M B) (db : DB) :
  trace (bind m k db) =
  match result (m db) with
  | Ok a => trace (m db) ++ trace (k a (final_db (m db)))
  | Raise e => trace (m db)
  end.
Proof. rewrite bind_unfold. now destruct (result (m db)). Qed.

Lemma bind_lift_Ok {A B} (a : A) (k : A -> M B) (db : DB) :
  bind (lift (Ok a)) k db = k a db.
Proof. unfold bind, lift. now destruct (k a db) as [[r d] t]. Qed.

Lemma bind_lift_Raise {A B} (e : exn) (k : A -> M B) (db : DB) :
  bind (lift (Raise e)) k db = (Raise e, db, []).
Proof. reflexivity. Qed.

(** ** Reading never writes *)

Lemma objects_get_In {R} (model : string) (l : list R) (r : R) :
  objects_get model l = Ok r -> l = [r].
Proof.
  destruct l as [|x [|y l]]; simpl; intros H; try discriminate. congruence.
Qed.

Lemma readonly_School_get (pk : Z) : readonly (School_get pk).
Proof.
  apply readonly_bind; [apply readonly_select | intro; apply readonly_lift].
Qed.

Lemma readonly_Paiement_get (pk : Z) : readonly (Paiement_get pk).
Proof.
  apply readonly_bind; [apply readonly_select | intro; apply readonly_lift].
Qed.

Lemma readonly_Building_get (name : string) : readonly (Building_get name).
Proof.
  apply readonly_bind; [apply readonly_select | intro; apply readonly_lift].
Qed.

Lemma readonly_Room_get (b : Building.t) (name : string) :
  readonly (Room_get b name).
Proof.
  apply readonly_bind; [apply readonly_select | intro; apply readonly_lift].
Qed.

Lemma readonly_Article_get (pk : Z) : readonly (Article_get pk).
Proof.
  apply readonly_bind; [apply readonly_select | intro; apply readonly_lift].
Qed.

Lemma readonly_User_get (pseudo : string) : readonly (User_get pseudo).
Proof.
  apply readonly_bind; [apply readonly_select | intro; apply readonly_lift].
Qed.

Lemma readonly_get_room (room : string) : readonly (get_room room).
Proof.
  unfold get_room.
  apply readonly_bind; [apply readonly_lift | intro].
  apply readonly_bind; [apply readonly_Building_get | intro].
  apply readonly_Room_get.
Qed.

Lemma readonly_CSVUser_init (ln fn em rm : string) :
  readonly (CSVUser_init ln fn em rm).
Proof.
  unfold CSVUser_init.
  apply readonly_bind; [apply readonly_lift | intro].
  apply readonly_bind; [apply readonly_get_room | intro].
  apply readonly_ret.
Qed.

Lemma readonly_read_rows (data : list (list string)) :
  forall acc, readonly (read_rows data acc).
Proof.
  induction data as [|row data IH]; intros acc; simpl.
  - apply readonly_ret.
  - repeat (apply readonly_bind; [apply readonly_lift | intro]).
    apply readonly_bind; [apply readonly_CSVUser_init | intro]. apply IH.
Qed.

Lemma readonly_read_file (env : Env) : readonly (read_file env).
Proof.
  unfold read_file.
  apply readonly_bind; [apply readonly_emit | intro].
  apply readonly_bind; [apply readonly_lift | intro].
  apply readonly_read_rows.
Qed.

Lemma readonly_check_constraints (usernames : list string) :
  readonly (check_constraints usernames).
Proof.
  unfold check_constraints.
  apply readonly_bind; [apply readonly_select | intros [|a l]].
  - apply readonly_ret.
  - apply readonly_raise.
Qed.

Lemma readonly_print (line : string) : readonly (print line).
Proof. apply readonly_emit. Qed.

(** ** Parsing the rows *)

Lemma CSVUser_init_result (ln fn em rm : string) (db : DB) :
  result (CSVUser_init ln fn em rm db) =
  match get_username em with
  | Ok username =>
      match result (get_room rm db) with
      | Ok room => Ok (CSVUser.mk fn ln em username room)
      | Raise e => Raise e
      end
  | Raise e => Raise e
  end.
Proof.
  unfold CSVUser_init.
  destruct (get_username em) as [u|e]; [|reflexivity].
  rewrite bind_lift_Ok, result_bind.
  now destruct (result (get_room rm db)).
Qed.

Lemma read_rows_Ok (data : list (list string)) :
  forall acc db us,
    result (read_rows data acc db) = Ok us ->
    exists new, us = acc ++ new /\ Forall2 (row_user db) data new.
Proof.
  induction data as [|row data IH]; intros acc db us H.
  - simpl in H. injection H as <-. exists []. rewrite app_nil_r. auto.
  - destruct row as [|c0 [|c1 [|c2 [|c3 rest]]]]; try discriminate H.
    cbn [read_rows getitem nth_error] in H.
    rewrite !bind_lift_Ok, result_bind in H.
    pose proof (CSVUser_init_result c0 c1 c2 c3 db) as Hu.
    destruct (result (CSVUser_init c0 c1 c2 c3 db)) as [u|e] eqn:Eu;
      [|discriminate].
    rewrite readonly_CSVUser_init in H.
    apply IH in H as (new & -> & Hnew).
    exists (u :: new). rewrite <- app_assoc. split; [reflexivity|].
    constructor; [|exact Hnew].
    destruct (get_username c2) as [name|] eqn:En; [|discriminate].
    destruct (result (get_room c3 db)) as [rm|] eqn:Er; [|discriminate].
    injection Hu as ->. exists c0, c1, c2, c3, rest. simpl. repeat split; auto.
Qed.

Lemma read_file_Ok (env : Env) (db : DB) (us : list CSVUser.t) :
  result (read_file env db) = Ok us ->
  exists rows,
    csv_reader env (PATH (settings env)) = Ok rows /\
    Forall2 (row_user db) rows us.
Proof.
  unfold read_file. rewrite result_bind. cbn [emit result final_db fst snd].
  destruct (csv_reader env (PATH (settings env))) as [rows|e] eqn:E.
  - rewrite bind_lift_Ok. intros H. apply read_rows_Ok in H as (new & -> & H).
    exists rows. auto.
  - discriminate.
Qed.

Lemma bind_ext {A B} (m : M A) (k k' : A -> M B) (db : DB) :
  (forall a d, k a d = k' a d) -> bind m k db = bind m k' db.
Proof.
  intros H. unfold bind. destruct (m db) as [[[a|e] d1] t1]; auto.
  now rewrite H.
Qed.

Lemma getitem_firstn {A} (l : list A) (n i : nat) :
  i < n -> getitem (firstn n l) i = getitem l i.
Proof.
  intros H. unfold getitem. now rewrite nth_error_firstn, (proj2 (Nat.ltb_lt i n) H).
Qed.

Lemma read_rows_firstn (data : list (list string)) :
  forall acc db,
    read_rows (map (firstn 4) data) acc db = read_rows data acc db.
Proof.
  induction data as [|row data IH]; intros acc db; [reflexivity|].
  cbn [map read_rows].
  rewrite !getitem_firstn by lia.
  repeat (apply bind_ext; intros ? ?). apply IH.
Qed.

Lemma row_user_length (db : DB) (row : list string) (u : CSVUser.t) :
  row_user db row u -> 4 <= List.length row.
Proof.
  intros (c0 & c1 & c2 & c3 & rest & -> & _). simpl. lia.
Qed.

Lemma row_user_room (db : DB) (row : list string) (u : CSVUser.t) (room : string) :
  row_user db row u -> nth_error row 3 = Some room ->
  result (get_room room db) = Ok (CSVUser.room u).
Proof.
  intros (c0 & c1 & c2 & c3 & rest & -> & _ & _ & _ & _ & H) E.
  simpl in E. now injection E as <-.
Qed.

Lemma Forall2_In_l {A B} (R : A -> B -> Prop) (l : list A) (l' : list B) (a : A) :
  Forall2 R l l' -> In a l -> exists b, In b l' /\ R a b.
Proof.
  induction 1 as [|x y l l' Hxy _ IH]; intros Ha; [contradiction|].
  destruct Ha as [<-|Ha].
  - exists y. simpl. auto.
  - destruct (IH Ha) as (b & Hb & Hr). exists b. simpl. auto.
Qed.

(** When parsing fails the whole import fails. *)
Lemma read_file_Raise_body (env : Env) (db : DB) (e : exn) :
  result (read_file env db) = Raise e ->
  exists e', result (transaction_body env db) = Raise e'.
Proof.
  intros H. unfold transaction_body. rewrite result_bind.
  destruct (result (School_get _ db)) as [school|e1]; [|now exists e1].
  rewrite readonly_School_get, result_bind.
  destruct (result (Paiement_get _ db)) as [payment|e2]; [|now exists e2].
  rewrite readonly_Paiement_get, result_bind, H. now exists e.
Qed.

Lemma transaction_Raise (env : Env) (db : DB) (e : exn) :
  result (transaction_body env db) = Raise e ->
  result (transaction env db) = Raise e /\ final_db (transaction env db) = db.
Proof.
  intros H. unfold transaction. rewrite atomic_result.
  split; [exact H | now apply atomic_Raise with e].
Qed.

Lemma get_room_no_space (room : string) (db : DB) :
  PyStr.mem " " room = false -> result (get_room room db) = Raise ValueError.
Proof.
  intros H. unfold get_room. now rewrite (index_missing _ _ H).
Qed.

Lemma get_room_split (b n : string) (db : DB) :
  PyStr.mem " " b = false ->
  get_room (b ++ " " ++ n) db =
  bind (Building_get b) (fun building => Room_get building n) db.
Proof.
  intros H. unfold get_room.
  change (b ++ " " ++ n)%string with (b ++ String " " n)%string.
  rewrite (index_found _ _ n H), bind_lift_Ok.
  cbv zeta. now rewrite slice_to_app, slice_from_succ.
Qed.

Lemma filter_singleton {A} (f : A -> bool) (l : list A) (a : A) :
  filter f l = [a] -> In a l /\ f a = true.
Proof.
  intros H. apply filter_In. rewrite H. now left.
Qed.

Lemma Building_get_Ok (name : string) (db : DB) (b : Building.t) :
  result (Building_get name db) = Ok b ->
  In b (buildings db) /\ Building.name b = name.
Proof.
  unfold Building_get. rewrite result_bind. cbn [select result fst lift].
  intros H. apply objects_get_In, filter_singleton in H as [Hin Hn].
  split; [exact Hin | now apply String.eqb_eq].
Qed.

Lemma Room_get_Ok (b : Building.t) (name : string) (db : DB) (r : Room.t) :
  result (Room_get b name db) = Ok r ->
  In r (rooms db) /\ Room.building r = Building.pk b /\ Room.name r = name.
Proof.
  unfold Room_get. rewrite result_bind. cbn [select result fst lift].
  intros H. apply objects_get_In, filter_singleton in H as [Hin Hn].
  apply andb_true_iff in Hn as [Hb Hn].
  repeat split; [exact Hin | now apply Z.eqb_eq | now apply String.eqb_eq].
Qed.

(** ** The claims about parsing *)

(** C4: the username derived for a row is the local part of its email
    address (what comes before the first [@], the whole address when it has
    none) with every dot replaced by a dash.  [get_username] never raises, and
    every user [read_file] returns carries the username of its email. *)
Theorem username_is_dashed_local_part :
  (forall email,
      exists local username,
        get_username email = Ok username /\
        is_local_part email local /\
        dots_to_dashes local username) /\
  (forall env db us,
      result (read_file env db) = Ok us ->
      Forall (fun u => exists local,
                  is_local_part (CSVUser.email u) local /\
                  dots_to_dashes local (CSVUser.username u)) us).
Proof.
  assert (Hone : forall email, exists local username,
             get_username email = Ok username /\
             is_local_part email local /\ dots_to_dashes local username).
  { intros email. destruct (get_username_total email) as (local & E & Hl).
    exists local, (PyStr.replace "." "-" local).
    split; [exact E|]. split; [exact Hl|].
    split; [apply replace_length | intro; apply replace_get]. }
  split; [exact Hone|].
  intros env db us H. apply read_file_Ok in H as (rows & _ & H).
  induction H as [|row u rows us Hru _ IH]; constructor; [|exact IH].
  destruct Hru as (c0 & c1 & c2 & c3 & rest & _ & _ & _ & Hem & Hun & _).
  destruct (Hone c2) as (local & username & E & Hl & Hd).
  rewrite Hun in E. injection E as <-. exists local. now rewrite Hem.
Qed.

(** C5: a room string [<Building> <RoomName>] is cut at its first space, the
    building is looked up by the name before it and the room by that building
    and the name after it; a room string with no space raises, and a CSV row
    holding one aborts the import. *)
Theorem room_string_resolution :
  (forall b n db,
      PyStr.mem " " b = false ->
      get_room (b ++ " " ++ n) db =
      bind (Building_get b) (fun building => Room_get building n) db) /\
  (forall b n db r,
      PyStr.mem " " b = false ->
      result (get_room (b ++ " " ++ n) db) = Ok r ->
      In r (rooms db) /\ Room.name r = n /\
      exists building,
        In building (buildings db) /\ Building.name building = b /\
        Room.building r = Building.pk building) /\
  (forall room db,
      PyStr.mem " " room = false ->
      result (get_room room db) = Raise ValueError) /\
  (forall env db rows row room,
      csv_reader env (PATH (settings env)) = Ok rows ->
      In row rows -> nth_error row 3 = Some room ->
      PyStr.mem " " room = false ->
      exists e,
        result (transaction env db) = Raise e /\
        final_db (transaction env db) = db).
Proof.
  split; [exact get_room_split|].
  split.
  { intros b n db r Hb H. rewrite (get_room_split b n db Hb), result_bind in H.
    destruct (result (Building_get b db)) as [bd|] eqn:Eb; [|discriminate].
    rewrite readonly_Building_get in H.
    apply Building_get_Ok in Eb as [Hbin Hbn].
    apply Room_get_Ok in H as (Hin & Hrb & Hrn).
    repeat split; auto. exists bd. auto. }
  split; [exact get_room_no_space|].
  intros env db rows row room Hcsv Hin Hnth Hsp.
  destruct (result (read_file env db)) as [us|e] eqn:E.
  - apply read_file_Ok in E as (rows' & Hcsv' & H2).
    rewrite Hcsv in Hcsv'. injection Hcsv' as <-.
    destruct (Forall2_In_l _ _ _ _ H2 Hin) as (u & _ & Hu).
    pose proof (row_user_room _ _ _ _ Hu Hnth) as Hr.
    rewrite (get_room_no_space room db Hsp) in Hr. discriminate.
  - destruct (read_file_Raise_body env db e E) as (e' & He').
    exists e'. now apply transaction_Raise.
Qed.

(** C6: [read_file] turns each row the CSV reader yields into one user, in
    order, with the first four columns as last name, first name, email and
    room string; a row with fewer than four columns makes it raise, which
    aborts the import; columns after the fourth change nothing. *)
Theorem read_file_columns (env : Env) (db : DB) (rows : list (list string)) :
  csv_reader env (PATH (settings env)) = Ok rows ->
  (forall us,
      result (read_file env db) = Ok us -> Forall2 (row_user db) rows us) /\
  ((exists row, In row rows /\ List.length row < 4) ->
   exists e,
     result (read_file env db) = Raise e /\
     exists e',
       result (transaction env db) = Raise e' /\
       final_db (transaction env db) = db) /\
  read_rows (map (firstn 4) rows) [] db = read_rows rows [] db.
Proof.
  intros Hcsv. split; [|split].
  - intros us H. apply read_file_Ok in H as (rows' & Hcsv' & H2).
    rewrite Hcsv in Hcsv'. now injection Hcsv' as <-.
  - intros (row & Hin & Hlen).
    destruct (result (read_file env db)) as [us|e] eqn:E.
    + apply read_file_Ok in E as (rows' & Hcsv' & H2).
      rewrite Hcsv in Hcsv'. injection Hcsv' as <-.
      destruct (Forall2_In_l _ _ _ _ H2 Hin) as (u & _ & Hu).
      apply row_user_length in Hu. lia.
    + exists e. split; [reflexivity|].
      destruct (read_file_Raise_body env db e E) as (e' & He').
      exists e'. now apply transaction_Raise.
  - apply read_rows_firstn.
Qed.

Lemma username_witness :
  Forall (fun u => exists local,
              is_local_part (CSVUser.email u) local /\
              dots_to_dashes local (CSVUser.username u))
         [Sample.john; Sample.jane].
Proof.
  exact (proj2 username_is_dashed_local_part Sample.env Sample.db
               [Sample.john; Sample.jane] eq_refl).
Defined.

Lemma room_string_witness :
  result (get_room "A 102-2" Sample.db) = Ok (Room.mk 11 1 "102-2") /\
  In (Room.mk 11 1 "102-2") (rooms Sample.db) /\
  result (get_room "A101" Sample.db) = Raise ValueError /\
  exists e,
    result (transaction Sample.no_space_env Sample.db) = Raise e /\
    final_db (transaction Sample.no_space_env Sample.db) = Sample.db.
Proof.
  destruct room_string_resolution as (_ & Hok & Hno & Habort).
  split; [reflexivity|].
  split.
  - exact (proj1 (Hok "A" "102-2" Sample.db (Room.mk 11 1 "102-2")
                      eq_refl eq_refl)).
  - split.
    + exact (Hno "A101" Sample.db eq_refl).
    + exact (Habort Sample.no_space_env Sample.db Sample.no_space_rows
                    ["Doe"; "John"; "john.doe@example.org"; "A101"] "A101"
                    eq_refl (or_introl eq_refl) eq_refl eq_refl).
Defined.

Lemma read_file_columns_witness :
  Forall2 (row_user Sample.db) Sample.rows [Sample.john; Sample.jane] /\
  exists e, result (read_file Sample.short_env Sample.db) = Raise e.
Proof.
  split.
  - exact (proj1 (read_file_columns Sample.env Sample.db Sample.rows eq_refl)
                 [Sample.john; Sample.jane] eq_refl).
  - destruct (proj1 (proj2 (read_file_columns Sample.short_env Sample.db
                              Sample.short_rows eq_refl)))
      as (e & He & _).
    + exists ["Roe"; "Jane"; "jane.m.roe@example.org"].
      split; [right; left; reflexivity | simpl; lia].
    + now exists e.
Defined.

(** What the script does with a few addresses, room strings and rows. *)
Example get_username_examples :
  get_username "jane.m.roe@example.org" = Ok "jane-m-roe" /\
  get_username "no.at.sign" = Ok "no-at-sign" /\
  get_username "a.b@c.d@e.f" = Ok "a-b" /\
  get_username "@example.org" = Ok "".
Proof. repeat split. Qed.

Example get_room_examples :
  result (get_room "A 101" Sample.db) = Ok (Room.mk 10 1 "101") /\
  result (get_room "B 101" Sample.db) = Ok (Room.mk 12 2 "101") /\
  result (get_room "A  101" Sample.db) = Raise (DoesNotExist "Room") /\
  result (get_room "C 101" Sample.db) = Raise (DoesNotExist "Building") /\
  result (get_room " 101" Sample.db) = Raise (DoesNotExist "Building").
Proof. repeat split. Qed.

Example read_file_short_row :
  result (read_file Sample.short_env Sample.db) = Raise IndexError.
Proof. reflexivity. Qed.

(** ** The uniqueness check *)

Lemma check_constraints_run (usernames : list string) (db : DB) :
  check_constraints usernames db =
  match filter (fun u => User.is_adherent u && str_in (User.pseudo u) usernames)
               (users db) with
  | [] => (Ok tt, db, [ESelect (QAdherentPseudoIn usernames)])
  | a :: l =>
      (Raise (Exception ("The following usernames are not unique : "
                         ++ PyStr.join ", " (map User.pseudo (a :: l)))%string),
       db, [ESelect (QAdherentPseudoIn usernames)])
  end.
Proof.
  unfold check_constraints, Adherent_filter_pseudo_in, bind, select.
  now destruct (filter _ (users db)).
Qed.

Lemma taken_iff (usernames : list string) (db : DB) (x : string) :
  In x (map User.pseudo
          (filter (fun u => User.is_adherent u && str_in (User.pseudo u) usernames)
                  (users db))) <->
  In x usernames /\
  exists a, In a (users db) /\ User.is_adherent a = true /\ User.pseudo a = x.
Proof.
  rewrite in_map_iff. split.
  - intros (a & <- & Ha). apply filter_In in Ha as [Hin Hf].
    apply andb_true_iff in Hf as [Had Hp]. apply str_in_In in Hp.
    split; [exact Hp|]. exists a. auto.
  - intros (Hx & a & Hin & Had & <-). exists a. split; [reflexivity|].
    apply filter_In. split; [exact Hin|].
    apply andb_true_iff. split; [exact Had | now apply str_in_In].
Qed.

(** C2: [check_constraints] raises exactly when some username of the list is
    the pseudo of an adherent in the database; the message then lists those
    usernames; it never changes the database and returns normally when none
    is taken. *)
Theorem check_constraints_spec (usernames : list string) (db : DB) :
  final_db (check_constraints usernames db) = db /\
  ((exists e, result (check_constraints usernames db) = Raise e) <->
   (exists a, In a (users db) /\ User.is_adherent a = true /\
              In (User.pseudo a) usernames)) /\
  (forall e,
      result (check_constraints usernames db) = Raise e ->
      exists taken,
        e = Exception ("The following usernames are not unique : "
                       ++ PyStr.join ", " taken)%string /\
        forall x,
          In x taken <->
          In x usernames /\
          exists a, In a (users db) /\ User.is_adherent a = true /\
                    User.pseudo a = x) /\
  (result (check_constraints usernames db) = Ok tt \/
   exists e, result (check_constraints usernames db) = Raise e).
Proof.
  split; [apply readonly_check_constraints|].
  pose proof (taken_iff usernames db) as Ht.
  rewrite check_constraints_run.
  destruct (filter _ (users db)) as [|a l] eqn:E; cbn [result fst].
  - split; [|split].
    + split.
      * intros (e & He). discriminate.
      * intros (a & Hin & Had & Hp). exfalso.
        apply (proj2 (Ht (User.pseudo a))). split; [exact Hp|]. exists a. auto.
    + intros e He. discriminate.
    + now left.
  - split; [|split].
    + split.
      * intros _. destruct (proj1 (Ht (User.pseudo a))) as (Hp & _).
        { now left. }
        assert (Ha : In a (filter (fun u => User.is_adherent u
                                     && str_in (User.pseudo u) usernames)
                                  (users db))) by (rewrite E; now left).
        apply filter_In in Ha as [Hin Hf].
        apply andb_true_iff in Hf as [Had _]. exists a. auto.
      * intros _. eexists. reflexivity.
    + intros e He. injection He as <-.
      exists (map User.pseudo (a :: l)). split; [reflexivity | exact Ht].
    + right. eexists. reflexivity.
Qed.

Lemma check_constraints_witness :
  result (check_constraints ["john-doe"; "alice-martin"; "bob-petit"; "chess"]
                            Sample.db)
  = Raise (Exception
             "The following usernames are not unique : alice-martin, bob-petit") /\
  result (check_constraints ["john-doe"; "chess"] Sample.db) = Ok tt /\
  final_db (check_constraints ["john-doe"; "alice-martin"] Sample.db) = Sample.db.
Proof.
  split; [reflexivity|]. split; [reflexivity|].
  exact (proj1 (check_constraints_spec ["john-doe"; "alice-martin"] Sample.db)).
Defined.

(** ** Evicting the occupant of a room *)

Lemma force_move_run (room : Room.t) (db : DB) :
  force_move room db =
  match occupants room db with
  | [] => (Ok tt, db, [ESelect (QAdherentRoom (Room.pk room))])
  | first :: _ =>
      (Ok tt,
       with_users
         (map (fun r => if Z.eqb (User.pk r) (User.pk first)
                        then User.set_room None first else r) (users db)) db,
       [ESelect (QAdherentRoom (Room.pk room));
        EUpdateUser (User.set_room None first)])
  end.
Proof.
  unfold force_move, Adherent_filter_room, occupants, bind, select.
  now destruct (filter _ (users db)).
Qed.

Lemma filter_cons_split {A} (f : A -> bool) (l : list A) (a : A) (r : list A) :
  filter f l = a :: r ->
  exists l1 l2,
    l = l1 ++ a :: l2 /\ filter f l1 = [] /\ filter f l2 = r /\ f a = true.
Proof.
  induction l as [|x l IH]; simpl; [discriminate|].
  destruct (f x) eqn:Fx.
  - intros H. injection H as -> <-. exists [], l. auto.
  - intros H. destruct (IH H) as (l1 & l2 & -> & H1 & H2 & Fa).
    exists (x :: l1), l2. simpl. rewrite Fx. auto.
Qed.

Lemma map_replace_absent (u v : User.t) (l : list User.t) :
  ~ In (User.pk u) (map User.pk l) ->
  map (fun r => if Z.eqb (User.pk r) (User.pk u) then v else r) l = l.
Proof.
  induction l as [|x l IH]; simpl; intros H; [reflexivity|].
  destruct (Z.eqb_spec (User.pk x) (User.pk u)) as [E|E].
  - exfalso. apply H. now left.
  - f_equal. apply IH. intros Hin. apply H. now right.
Qed.

Lemma map_replace_unique (u v : User.t) (l1 l2 : list User.t) :
  NoDup (map User.pk (l1 ++ u :: l2)) ->
  map (fun r => if Z.eqb (User.pk r) (User.pk u) then v else r) (l1 ++ u :: l2)
  = l1 ++ v :: l2.
Proof.
  intros H. rewrite map_app in H. simpl in H.
  pose proof (NoDup_remove_2 _ _ _ H) as Hn.
  rewrite map_app. simpl. rewrite Z.eqb_refl.
  rewrite !map_replace_absent; [reflexivity | |];
    intros Hin; apply Hn, in_or_app; auto.
Qed.

Lemma set_room_same (o : option Z) (u : User.t) :
  same_but_room u (User.set_room o u).
Proof. repeat split. Qed.

Lemma create_account_Ok (env : Env) (school : School.t) (user : CSVUser.t)
    (db : DB) :
  result (create_account env school user db) = Ok tt ->
  let moved := final_db (force_move (CSVUser.room user) db) in
  let new :=
    User.mk (next_pk (map User.pk (users moved))) true
            (CSVUser.last_name user) (CSVUser.username user)
            (CSVUser.email user) (School.pk school) (COMMENT (settings env))
            STATE_ACTIVE EMAIL_STATE_VERIFIED (CSVUser.first_name user)
            (Some (Room.pk (CSVUser.room user))) in
  final_db (create_account env school user db)
  = with_users (users moved ++ [new]) moved /\
  trace (create_account env school user db)
  = trace (force_move (CSVUser.room user) db) ++ [EInsertUser new].
Proof.
  intros H moved new. unfold create_account in *.
  assert (Hfm : result (force_move (CSVUser.room user) db) = Ok tt).
  { rewrite force_move_run. now destruct (occupants _ db). }
  rewrite result_bind, Hfm, result_bind in H.
  rewrite final_db_bind, trace_bind, Hfm, final_db_bind, trace_bind.
  fold moved in H |- *.
  unfold Adherent_create in *. fold new in H |- *.
  destruct (integrity env moved new); cbn in *; [auto | discriminate].
Qed.

(** C8: [force_move] sets the room of the first adherent found in the room
    to [None], leaves that row otherwise as it was and touches no other row,
    so that the remaining occupants stay; with nobody in the room it changes
    nothing.  It runs before each account is inserted. *)
Theorem force_move_evicts_first (room : Room.t) (db : DB) :
  NoDup (map User.pk (users db)) ->
  result (force_move room db) = Ok tt /\
  match occupants room db with
  | [] => final_db (force_move room db) = db
  | first :: others =>
      exists before after evicted,
        users db = before ++ first :: after /\
        final_db (force_move room db)
        = with_users (before ++ evicted :: after) db /\
        User.room evicted = None /\
        same_but_room first evicted /\
        occupants room (final_db (force_move room db)) = others
  end /\
  (forall env school user,
      CSVUser.room user = room ->
      result (create_account env school user db) = Ok tt ->
      exists new,
        users (final_db (create_account env school user db))
        = users (final_db (force_move room db)) ++ [new] /\
        User.room new = Some (Room.pk room)).
Proof.
  intros Hnd. rewrite force_move_run.
  split; [now destruct (occupants room db)|].
  split.
  - destruct (occupants room db) as [|first others] eqn:E; [reflexivity|].
    unfold occupants in E. apply filter_cons_split in E
      as (before & after & Hu & Hb & Ha & Hf).
    exists before, after, (User.set_room None first).
    assert (Hmap : map (fun r => if Z.eqb (User.pk r) (User.pk first)
                                 then User.set_room None first else r)
                       (users db)
                   = before ++ User.set_room None first :: after).
    { rewrite Hu in Hnd |- *. now apply map_replace_unique. }
    cbn [final_db fst snd]. rewrite Hmap.
    split; [exact Hu|]. split; [reflexivity|]. split; [reflexivity|].
    split; [apply set_room_same|].
    unfold occupants. cbn [users with_users].
    rewrite filter_app, Hb. cbn [filter app]. rewrite Ha.
    unfold room_is. cbn [User.set_room User.room].
    now rewrite andb_false_r.
  - intros env school user <- H.
    destruct (create_account_Ok env school user db H) as [Hdb _].
    eexists. rewrite Hdb. cbn [users with_users].
    rewrite force_move_run. split; reflexivity.
Qed.

Lemma force_move_witness :
  occupants (Room.mk 10 1 "101") Sample.db
  = [Sample.old_member; Sample.second_occupant] /\
  occupants (Room.mk 10 1 "101")
            (final_db (force_move (Room.mk 10 1 "101") Sample.db))
  = [Sample.second_occupant] /\
  result (force_move (Room.mk 10 1 "101") Sample.db) = Ok tt.
Proof.
  split; [reflexivity|]. split; [reflexivity|].
  refine (proj1 (force_move_evicts_first (Room.mk 10 1 "101") Sample.db _)).
  repeat constructor; simpl; intuition discriminate.
Defined.

(** ** Atomicity *)

(** C1: when [transaction] raises, whatever the step that raised, the
    database is what it was before the call; when it returns, the writes of
    its body are kept. *)
Theorem transaction_all_or_nothing (env : Env) (db : DB) :
  (forall e,
      result (transaction env db) = Raise e ->
      final_db (transaction env db) = db) /\
  (result (transaction env db) = Ok tt ->
   final_db (transaction env db) = final_db (transaction_body env db)) /\
  result (transaction env db) = result (transaction_body env db).
Proof.
  unfold transaction. rewrite atomic_result. split; [|split].
  - intros e H. now apply atomic_Raise with e.
  - intros H. now apply atomic_Ok with tt.
  - reflexivity.
Qed.

Lemma transaction_rollback_witness :
  result (transaction Sample.clash_env Sample.db) = Raise IntegrityError /\
  final_db (transaction_body Sample.clash_env Sample.db) <> Sample.db /\
  final_db (transaction Sample.clash_env Sample.db) = Sample.db.
Proof.
  split; [reflexivity|]. split; [discriminate|].
  exact (proj1 (transaction_all_or_nothing Sample.clash_env Sample.db)
               IntegrityError eq_refl).
Defined.

Example transaction_failures :
  result (transaction Sample.taken_env Sample.db)
  = Raise (Exception "The following usernames are not unique : alice-martin") /\
  result (transaction Sample.no_space_env Sample.db) = Raise ValueError /\
  result (transaction Sample.short_env Sample.db) = Raise IndexError /\
  result (transaction Sample.env Sample.db) = Ok tt.
Proof. repeat split. Qed.

(** ** The shape of a run *)

Lemma transaction_body_unfold (env : Env) :
  transaction_body env =
  (school <- School_get (SCHOOL_ID (settings env)) ;;
   payment <- Paiement_get (PAYMENT_METHOD (settings env)) ;;
   users <- read_file env ;;
   print (str_of_nat (List.length users) ++ " users detected")%string ;;
   print "Verifying that no conflict occurs for usernames" ;;
   check_constraints (map CSVUser.username users) ;;
   after_check env school payment users).
Proof. reflexivity. Qed.

Lemma maintains_readonly (I : DB -> Prop) {A} (m : M A) :
  readonly m -> maintains I m.
Proof. intros H db Hi. now rewrite H. Qed.

Lemma maintains_bind (I : DB -> Prop) {A B} (m : M A) (k : A -> M B) :
  maintains I m ->
  (forall a db, result (m db) = Ok a -> maintains I (k a)) ->
  maintains I (bind m k).
Proof.
  intros Hm Hk db Hi. rewrite final_db_bind.
  destruct (result (m db)) as [a|e] eqn:E.
  - apply (Hk a db E). now apply Hm.
  - now apply Hm.
Qed.

Lemma maintains_for_each (I : DB -> Prop) {A} (l : list A) (body : A -> M unit) :
  (forall x, maintains I (body x)) -> maintains I (for_each l body).
Proof.
  intros H. induction l as [|x l IH]; simpl.
  - apply maintains_readonly, readonly_ret.
  - apply maintains_bind; auto.
Qed.

Lemma emits_bind_result (P : Event -> Prop) {A B} (m : M A) (k : A -> M B) :
  emits P m ->
  (forall a db, result (m db) = Ok a -> emits P (k a)) ->
  emits P (bind m k).
Proof.
  intros Hm Hk db. rewrite trace_bind.
  destruct (result (m db)) as [a|e] eqn:E.
  - apply Forall_app. split; [apply Hm | now apply (Hk a db)].
  - apply Hm.
Qed.

Lemma School_get_Ok (pk : Z) (db : DB) (s : School.t) :
  result (School_get pk db) = Ok s -> In s (schools db) /\ School.pk s = pk.
Proof.
  unfold School_get. rewrite result_bind. cbn [select result fst lift].
  intros H. apply objects_get_In, filter_singleton in H as [Hin Hn].
  split; [exact Hin | now apply Z.eqb_eq].
Qed.

Lemma Paiement_get_Ok (pk : Z) (db : DB) (p : Paiement.t) :
  result (Paiement_get pk db) = Ok p ->
  In p (paiements db) /\ Paiement.pk p = pk.
Proof.
  unfold Paiement_get. rewrite result_bind. cbn [select result fst lift].
  intros H. apply objects_get_In, filter_singleton in H as [Hin Hn].
  split; [exact Hin | now apply Z.eqb_eq].
Qed.

Lemma Article_get_Ok (pk : Z) (db : DB) (a : Article.t) :
  result (Article_get pk db) = Ok a ->
  In a (articles db) /\ Article.pk a = pk.
Proof.
  unfold Article_get. rewrite result_bind. cbn [select result fst lift].
  intros H. apply objects_get_In, filter_singleton in H as [Hin Hn].
  split; [exact Hin | now apply Z.eqb_eq].
Qed.

Lemma User_get_Ok (pseudo : string) (db : DB) (u : User.t) :
  result (User_get pseudo db) = Ok u ->
  In u (users db) /\ User.pseudo u = pseudo.
Proof.
  unfold User_get. rewrite result_bind. cbn [select result fst lift].
  intros H. apply objects_get_In, filter_singleton in H as [Hin Hn].
  split; [exact Hin | now apply String.eqb_eq].
Qed.

(** The effects of the steps before the accounts: reads and prints only. *)
Lemma emits_get {R} (P : Event -> Prop) (q : Query) (rows : DB -> list R)
    (model : string) :
  P (ESelect q) ->
  emits P (found <- select q rows ;; lift (objects_get model found)).
Proof.
  intros H. apply emits_bind; [now apply emits_select | intro; apply emits_lift].
Qed.

Lemma emits_get_room (P : Event -> Prop) (room : string) :
  (forall q, is_parse (ESelect q) = true -> P (ESelect q)) ->
  emits P (get_room room).
Proof.
  intros H. unfold get_room.
  apply emits_bind; [apply emits_lift | intro].
  apply emits_bind; [apply emits_get; now apply H | intro].
  apply emits_get. now apply H.
Qed.

Lemma emits_read_rows (P : Event -> Prop) (data : list (list string)) :
  (forall q, is_parse (ESelect q) = true -> P (ESelect q)) ->
  forall acc, emits P (read_rows data acc).
Proof.
  intros H. induction data as [|row data IH]; intros acc; simpl.
  - apply emits_ret.
  - repeat (apply emits_bind; [apply emits_lift | intro]).
    apply emits_bind; [|intro; apply IH].
    unfold CSVUser_init.
    apply emits_bind; [apply emits_lift | intro].
    apply emits_bind; [now apply emits_get_room | intro; apply emits_ret].
Qed.

Lemma emits_read_file (P : Event -> Prop) (env : Env) :
  (forall e, is_parse e = true -> P e) -> emits P (read_file env).
Proof.
  intros H. unfold read_file.
  apply emits_bind; [now apply emits_emit, H | intro].
  apply emits_bind; [apply emits_lift | intro].
  apply emits_read_rows. intros q Hq. now apply H.
Qed.

Lemma emits_check_constraints (P : Event -> Prop) (usernames : list string) :
  P (ESelect (QAdherentPseudoIn usernames)) ->
  emits P (check_constraints usernames).
Proof.
  intros H db. rewrite check_constraints_run.
  destruct (filter _ (users db)); repeat constructor; exact H.
Qed.

Lemma emits_force_move (P : Event -> Prop) (room : Room.t) :
  P (ESelect (QAdherentRoom (Room.pk room))) ->
  (forall u, P (EUpdateUser u)) ->
  emits P (force_move room).
Proof.
  intros H1 H2 db. rewrite force_move_run.
  destruct (occupants room db); repeat constructor; auto.
Qed.

Lemma emits_create_account (P : Event -> Prop) (env : Env) (school : School.t)
    (user : CSVUser.t) :
  (forall r, P (ESelect (QAdherentRoom r))) ->
  (forall u, P (EUpdateUser u)) ->
  (forall u,
      User.is_adherent u = true -> User.state u = STATE_ACTIVE ->
      User.email_state u = EMAIL_STATE_VERIFIED ->
      User.school u = School.pk school ->
      User.comment u = COMMENT (settings env) ->
      P (EInsertUser u)) ->
  emits P (create_account env school user).
Proof.
  intros H1 H2 H3. unfold create_account.
  apply emits_bind; [now apply emits_force_move | intros _].
  apply emits_bind; [|intro; apply emits_ret].
  intros db. unfold Adherent_create, trace.
  destruct (integrity env db _); repeat constructor. now apply H3.
Qed.

Lemma emits_print (P : Event -> Prop) (line : string) :
  P (EPrint line) -> emits P (print line).
Proof. apply emits_emit. Qed.

Lemma emits_reset_password (P : Event -> Prop) (env : Env) (user : CSVUser.t) :
  (forall p d r, P (EPost p d r)) -> emits P (reset_password env user).
Proof.
  intros H. unfold reset_password.
  apply emits_bind; [|intro; apply emits_ret].
  intros db. repeat constructor. apply H.
Qed.

Lemma emits_build_purchases (P : Event -> Prop) (arts : list (Z * Z))
    (invoice : Facture.t) :
  (forall k, P (ESelect (QArticle k))) ->
  forall purchases total, emits P (build_purchases arts invoice purchases total).
Proof.
  intros H. induction arts as [|art arts IH]; intros purchases total; simpl.
  - apply emits_ret.
  - apply emits_bind; [now apply emits_get | intro]. apply IH.
Qed.

Lemma emits_Vente_save (P : Event -> Prop) (v : Vente.t) :
  (forall x, P (EInsertVente x)) -> (forall x, P (EUpdateVente x)) ->
  emits P (Vente_save v).
Proof.
  intros H1 H2 db. unfold Vente_save, trace.
  destruct (Vente.pk v); repeat constructor; auto.
Qed.

Lemma emits_add_subscription (P : Event -> Prop) (env : Env)
    (payment : Paiement.t) (user : CSVUser.t) :
  (forall e, phase e = Some 4 -> P e) ->
  emits P (add_subscription env payment user).
Proof.
  intros H. unfold add_subscription.
  apply emits_bind; [now apply emits_get, H | intro].
  apply emits_bind; [intro; repeat constructor; now apply H | intro].
  apply emits_bind;
    [apply emits_build_purchases; intro; now apply H | intro].
  apply emits_bind; [intro; repeat constructor; now apply H | intro].
  apply emits_bind;
    [apply emits_for_each; intro;
     apply emits_Vente_save; intro; now apply H | intro].
  intro; repeat constructor; now apply H.
Qed.

(** ** What the steps do to the tables *)

Lemma maintains_force_move (old : list Z) (env : Env) (room : Room.t) :
  maintains (old_or_imported old env) (force_move room).
Proof.
  intros db Hi. rewrite force_move_run.
  destruct (occupants room db) as [|first others] eqn:E; [exact Hi|].
  cbn [final_db fst snd]. intros u Hu. cbn [users with_users] in Hu.
  apply in_map_iff in Hu as (r & <- & Hr).
  destruct (Z.eqb (User.pk r) (User.pk first)); [|now apply Hi].
  assert (Hf : In first (users db)).
  { assert (H : In first (occupants room db)) by (rewrite E; now left).
    unfold occupants in H. now apply filter_In in H. }
  destruct (Hi first Hf) as [H|H]; [now left | right; exact H].
Qed.

Lemma maintains_create_account (old : list Z) (env : Env) (school : School.t)
    (user : CSVUser.t) :
  School.pk school = SCHOOL_ID (settings env) ->
  maintains (old_or_imported old env) (create_account env school user).
Proof.
  intros Hs. unfold create_account.
  apply maintains_bind; [apply maintains_force_move | intros _ _ _].
  apply maintains_bind;
    [|intros; apply maintains_readonly, readonly_ret].
  intros db Hi. unfold Adherent_create, final_db.
  destruct (integrity env db _); cbn [fst snd]; [|exact Hi].
  intros u Hu. cbn [users with_users] in Hu.
  apply in_app_or in Hu as [Hu|[<-|[]]]; [now apply Hi|].
  right. repeat split. exact Hs.
Qed.

Lemma users_Vente_save (v : Vente.t) (db : DB) :
  users (final_db (Vente_save v db)) = users db.
Proof. unfold Vente_save, final_db. now destruct (Vente.pk v). Qed.

Lemma maintains_users_only (I : DB -> Prop) {A} (m : M A) :
  (forall d d', users d = users d' -> I d -> I d') ->
  (forall db, users (final_db (m db)) = users db) ->
  maintains I m.
Proof. intros HI Hm db Hi. apply (HI db); [symmetry; apply Hm | exact Hi]. Qed.

Lemma users_add_subscription (env : Env) (payment : Paiement.t)
    (user : CSVUser.t) (db : DB) :
  users (final_db (add_subscription env payment user db)) = users db.
Proof.
  set (I := fun d : DB => users d = users db).
  assert (HI : forall d d', users d = users d' -> I d -> I d')
    by (unfold I; congruence).
  assert (Hro : forall A (m : M A), readonly m -> maintains I m)
    by (intros; now apply maintains_readonly).
  cut (maintains I (add_subscription env payment user)).
  { intros H. now apply H. }
  unfold add_subscription.
  apply maintains_bind; [apply Hro, readonly_User_get | intros].
  apply maintains_bind; [now apply maintains_users_only | intros].
  apply maintains_bind.
  { apply Hro. clear. generalize (@nil Vente.t), 0%Z.
    induction (ARTICLES (settings env)) as [|art arts IH]; intros ps tot; simpl.
    - apply readonly_ret.
    - apply readonly_bind; [apply readonly_Article_get | intro; apply IH]. }
  intros.
  apply maintains_bind; [now apply maintains_users_only | intros].
  apply maintains_bind; [|intros; now apply maintains_users_only].
  apply maintains_for_each. intros p.
  apply maintains_users_only; [exact HI | apply users_Vente_save].
Qed.

Lemma readonly_reset_password (env : Env) (user : CSVUser.t) :
  readonly (reset_password env user).
Proof.
  unfold reset_password.
  apply readonly_bind; [intro; reflexivity | intro; apply readonly_ret].
Qed.

(** Steps that only read leave any property of the database alone. *)
Create HintDb reads.

#[local] Hint Resolve readonly_print readonly_ret readonly_School_get
  readonly_Paiement_get readonly_read_file readonly_check_constraints
  readonly_reset_password readonly_for_each : reads.

Ltac after_reading :=
  apply maintains_bind; [apply maintains_readonly; auto with reads | intros].

(** The body of [transaction] keeps what its account and invoice loops
    keep. *)
Lemma maintains_before_resets (I : DB -> Prop) (env : Env) (school : School.t)
    (us : list CSVUser.t) (rest : M unit) :
  (forall u, maintains I (create_account env school u)) ->
  maintains I rest ->
  maintains I (print "Usernames OK" ;;
               print "Creating accounts" ;;
               for_each us (create_account env school) ;;
               print "Accountts created" ;;
               print "Reseting password" ;;
               for_each us (reset_password env) ;;
               rest).
Proof.
  intros Hc Hrest.
  do 2 after_reading.
  apply maintains_bind; [now apply maintains_for_each | intros].
  do 3 after_reading.
  exact Hrest.
Qed.

Lemma maintains_prologue (I : DB -> Prop) (env : Env)
    (rest : School.t -> Paiement.t -> list CSVUser.t -> M unit) :
  (forall school payment us,
      School.pk school = SCHOOL_ID (settings env) ->
      maintains I (rest school payment us)) ->
  maintains I
    (school <- School_get (SCHOOL_ID (settings env)) ;;
     payment <- Paiement_get (PAYMENT_METHOD (settings env)) ;;
     users <- read_file env ;;
     print (str_of_nat (List.length users) ++ " users detected")%string ;;
     print "Verifying that no conflict occurs for usernames" ;;
     check_constraints (map CSVUser.username users) ;;
     rest school payment users).
Proof.
  intros Hrest.
  apply maintains_bind;
    [apply maintains_readonly; auto with reads | intros school d0 Hs].
  apply School_get_Ok in Hs as [_ Hs].
  do 5 after_reading.
  now apply Hrest.
Qed.

Lemma maintains_after_resets (I : DB -> Prop) (env : Env) (payment : Paiement.t)
    (us : list CSVUser.t) :
  (forall d d', users d = users d' -> I d -> I d') ->
  maintains I (after_resets env payment us).
Proof.
  intros HI. unfold after_resets.
  after_reading.
  apply maintains_bind; [|intros; apply maintains_readonly; auto with reads].
  destruct (ARTICLES (settings env));
    [apply maintains_readonly; auto with reads|].
  after_reading.
  apply maintains_bind; [|intros; apply maintains_readonly; auto with reads].
  apply maintains_for_each. intros u.
  apply maintains_users_only; [exact HI | apply users_add_subscription].
Qed.

Lemma maintains_transaction_body (old : list Z) (env : Env) :
  maintains (old_or_imported old env) (transaction_body env).
Proof.
  rewrite transaction_body_unfold.
  apply maintains_prologue. intros school payment us Hs.
  apply maintains_before_resets.
  - intro u. now apply maintains_create_account.
  - apply maintains_after_resets.
    unfold old_or_imported. intros d d' Eu Hd u Hu. apply Hd. now rewrite Eu.
Qed.

Lemma emits_transaction_body (P : Event -> Prop) (env : Env) :
  (forall e, is_account_creation e = false -> phase e <> Some 4 -> P e) ->
  (ARTICLES (settings env) <> [] -> forall e, phase e = Some 4 -> P e) ->
  (forall u, imported_account env u -> P (EInsertUser u)) ->
  emits P (transaction_body env).
Proof.
  intros Ho Hinv Hi.
  assert (Hpr : forall line, emits P (print line))
    by (intro; apply emits_print, Ho; [reflexivity | discriminate]).
  assert (Hq : forall q,
             phase (ESelect q) <> Some 4 -> P (ESelect q))
    by (intros q Hq; now apply Ho).
  rewrite transaction_body_unfold.
  apply emits_bind_result;
    [apply emits_get, Hq; discriminate | intros school d0 Hs].
  apply School_get_Ok in Hs as [_ Hs].
  apply emits_bind; [apply emits_get, Hq; discriminate | intro].
  apply emits_bind; [|intro us].
  { apply emits_read_file. intros [] He; try discriminate He.
    - apply Ho; [reflexivity | discriminate].
    - apply Hq. destruct q; try discriminate He; discriminate. }
  apply emits_bind; [apply Hpr | intro].
  apply emits_bind; [apply Hpr | intro].
  apply emits_bind;
    [apply emits_check_constraints, Hq; discriminate | intro].
  unfold after_check.
  apply emits_bind; [apply Hpr | intro].
  apply emits_bind; [apply Hpr | intro].
  apply emits_bind.
  { apply emits_for_each. intro user. apply emits_create_account.
    - intro; apply Hq; discriminate.
    - intro; apply Ho; [reflexivity | discriminate].
    - intros u H1 H2 H3 H4 H5. apply Hi. repeat split; congruence. }
  intro. unfold after_accounts.
  apply emits_bind; [apply Hpr | intro].
  apply emits_bind; [apply Hpr | intro].
  apply emits_bind.
  { apply emits_for_each. intro user. apply emits_reset_password.
    intros; apply Ho; [reflexivity | discriminate]. }
  intro. unfold after_resets.
  apply emits_bind; [apply Hpr | intro].
  apply emits_bind; [|intro; apply Hpr].
  destruct (ARTICLES (settings env)) as [|art arts] eqn:Ea;
    [apply emits_ret|].
  apply emits_bind; [apply Hpr | intro].
  apply emits_bind; [|intro; apply Hpr].
  apply emits_for_each. intro user. apply emits_add_subscription.
  apply Hinv. discriminate.
Qed.

(** ** The accounts created *)

(** C9: every account row the import inserts is an adherent in state
    [STATE_ACTIVE] with email state [EMAIL_STATE_VERIFIED], the school
    [SCHOOL_ID] and the comment [COMMENT], whatever the CSV holds: this is so
    of every insertion performed, and of every account found after the
    transaction that was not there before it. *)
Theorem imported_accounts_active_verified (env : Env) (db : DB) :
  (forall u,
      In (EInsertUser u) (trace (transaction env db)) ->
      imported_account env u) /\
  (forall u,
      In u (users (final_db (transaction env db))) ->
      ~ In (User.pk u) (map User.pk (users db)) ->
      imported_account env u).
Proof.
  split.
  - intros u Hu. unfold transaction in Hu. rewrite atomic_trace in Hu.
    pose proof (emits_transaction_body
                  (fun e => forall v, e = EInsertUser v -> imported_account env v)
                  env) as H.
    assert (Hall : Forall (fun e => forall v, e = EInsertUser v ->
                                    imported_account env v)
                          (trace (transaction_body env db))).
    { apply H.
      - intros e He _ w Hw. subst e. discriminate He.
      - intros _ e He w Hw. subst e. discriminate He.
      - intros v Hv w Hw. now injection Hw as <-. }
    rewrite Forall_forall in Hall. now apply (Hall _ Hu).
  - intros u Hu Hnew.
    assert (Hinv : old_or_imported (map User.pk (users db)) env
                     (final_db (transaction_body env db))).
    { apply maintains_transaction_body. intros v Hv. left. now apply in_map. }
    destruct (result (transaction_body env db)) as [[]|e] eqn:E.
    + unfold transaction in Hu. rewrite (atomic_Ok _ _ _ E) in Hu.
      destruct (Hinv u Hu) as [H|H]; [contradiction | exact H].
    + unfold transaction in Hu. rewrite (atomic_Raise _ _ _ E) in Hu.
      exfalso. apply Hnew. now apply in_map.
Qed.

Lemma imported_accounts_witness :
  imported_account Sample.env
    (User.mk 5 true "Roe" "jane-m-roe" "jane.m.roe@example.org" 1 "Example"
             STATE_ACTIVE EMAIL_STATE_VERIFIED "Jane" (Some 11%Z)).
Proof.
  refine (proj2 (imported_accounts_active_verified Sample.env Sample.db) _ _ _).
  - vm_compute. do 4 right. left. reflexivity.
  - vm_compute. intuition discriminate.
Defined.

(** ** The password resets *)

Lemma reset_password_run (env : Env) (u : CSVUser.t) (db : DB) :
  reset_password env u db =
  (forget_response
     (client_post env (fst (reset_request u)) (snd (reset_request u)) db),
   db,
   [EPost (fst (reset_request u)) (snd (reset_request u))
          (client_post env (fst (reset_request u)) (snd (reset_request u)) db)]).
Proof.
  unfold reset_password, Client_post, bind, reset_request. cbn [fst snd].
  now destruct (client_post env _ _ db).
Qed.

Lemma posts_of_app (t1 t2 : list Event) :
  posts_of (t1 ++ t2) = posts_of t1 ++ posts_of t2.
Proof. apply flat_map_app. Qed.

Lemma posts_of_quiet (t : list Event) : Forall quiet t -> posts_of t = [].
Proof.
  induction 1 as [|e t He _ IH]; [reflexivity|].
  simpl. rewrite IH. now destruct e.
Qed.

(** The loop of resets: it goes through all the users when every request
    is answered, and stops at the first one whose view raises. *)
Lemma resets_loop (env : Env) (us : list CSVUser.t) (db : DB) :
  final_db (for_each us (reset_password env) db) = db /\
  ((result (for_each us (reset_password env) db) = Ok tt /\
    posts_of (trace (for_each us (reset_password env) db))
    = map reset_request us) \/
   exists e k,
     result (for_each us (reset_password env) db) = Raise e /\
     posts_of (trace (for_each us (reset_password env) db))
     = firstn k (map reset_request us)).
Proof.
  split; [apply readonly_for_each, readonly_reset_password|].
  induction us as [|u us IH]; [left; split; reflexivity|].
  cbn [for_each map]. rewrite result_bind, trace_bind, reset_password_run.
  cbn [result final_db trace fst snd].
  destruct (client_post env _ _ db) as [r|e]; cbn [forget_response].
  - rewrite posts_of_app. change (posts_of [EPost _ _ _]) with [reset_request u].
    destruct IH as [[Hr Hp]|(e & k & Hr & Hp)].
    + left. rewrite Hr, Hp. split; reflexivity.
    + right. exists e, (S k). rewrite Hr, Hp. split; reflexivity.
  - right. exists e, 1. split; reflexivity.
Qed.

Lemma resets_answered (env : Env) (us : list CSVUser.t) (db : DB) :
  answers env ->
  result (for_each us (reset_password env) db) = Ok tt /\
  final_db (for_each us (reset_password env) db) = db.
Proof.
  intros Hans.
  split; [|apply readonly_for_each, readonly_reset_password].
  induction us as [|u us IH]; [reflexivity|].
  cbn [for_each]. rewrite result_bind, reset_password_run.
  cbn [result final_db fst snd].
  destruct (Hans (fst (reset_request u)) (snd (reset_request u)) db)
    as (r & ->).
  exact IH.
Qed.

Lemma same_outcome_refl {A} (o : Result A * DB * list Event) : same_outcome o o.
Proof. split; reflexivity. Qed.

Lemma same_bind {A B} (m m' : M A) (k k' : A -> M B) (db : DB) :
  same_outcome (m db) (m' db) ->
  (forall a d, same_outcome (k a d) (k' a d)) ->
  same_outcome (bind m k db) (bind m' k' db).
Proof.
  intros [Hr Hd] Hk. unfold same_outcome.
  rewrite !result_bind, !final_db_bind, Hr, Hd.
  destruct (result (m' db)) as [a|e]; [apply Hk | auto].
Qed.

Lemma same_atomic {A} (m m' : M A) (db : DB) :
  same_outcome (m db) (m' db) -> same_outcome (atomic m db) (atomic m' db).
Proof.
  unfold same_outcome, atomic, result, final_db.
  destruct (m db) as [[[a|e] d] t], (m' db) as [[[a'|e'] d'] t'];
    cbn [fst snd]; intros [H1 H2]; try discriminate H1; auto.
Qed.

Lemma same_resets
    (c : string -> list (string * string) -> DB -> Result Response)
    (env : Env) (us : list CSVUser.t) :
  (forall p d s, forget_response (c p d s)
                 = forget_response (client_post env p d s)) ->
  forall db,
    same_outcome (for_each us (reset_password (with_client c env)) db)
                 (for_each us (reset_password env) db).
Proof.
  intros Hc. induction us as [|u us IH]; intros db;
    [apply same_outcome_refl|].
  cbn [for_each]. apply same_bind; [|intros _ d; apply IH].
  rewrite !reset_password_run. split; [apply Hc | reflexivity].
Qed.

Lemma same_transaction_body
    (c : string -> list (string * string) -> DB -> Result Response)
    (env : Env) (db : DB) :
  (forall p d s, forget_response (c p d s)
                 = forget_response (client_post env p d s)) ->
  same_outcome (transaction_body (with_client c env) db)
               (transaction_body env db).
Proof.
  intros Hc. rewrite !transaction_body_unfold.
  do 6 (apply same_bind; [apply same_outcome_refl | intros]).
  unfold after_check.
  do 3 (apply same_bind; [apply same_outcome_refl | intros]).
  unfold after_accounts.
  do 2 (apply same_bind; [apply same_outcome_refl | intros]).
  apply same_bind; [|intros; apply same_outcome_refl].
  now apply same_resets.
Qed.

Lemma quiet_bind_posts {A B} (m : M A) (k : A -> M B) (db : DB) :
  emits quiet m ->
  posts_of (trace (bind m k db)) =
  match result (m db) with
  | Ok a => posts_of (trace (k a (final_db (m db))))
  | Raise _ => []
  end.
Proof.
  intros H. rewrite trace_bind.
  destruct (result (m db)); [rewrite posts_of_app|];
    now rewrite (posts_of_quiet _ (H db)).
Qed.

Lemma quiet_after_resets (env : Env) (payment : Paiement.t)
    (us : list CSVUser.t) :
  emits quiet (after_resets env payment us).
Proof.
  unfold after_resets.
  apply emits_bind; [now apply emits_print | intro].
  apply emits_bind; [|intro; now apply emits_print].
  destruct (ARTICLES (settings env)); [apply emits_ret|].
  apply emits_bind; [now apply emits_print | intro].
  apply emits_bind; [|intro; now apply emits_print].
  apply emits_for_each. intro u. apply emits_add_subscription.
  intros [] He; try discriminate He; reflexivity.
Qed.

Lemma quiet_create_accounts (env : Env) (school : School.t)
    (us : list CSVUser.t) :
  emits quiet (for_each us (create_account env school)).
Proof.
  apply emits_for_each. intro u.
  apply emits_create_account; intros; reflexivity.
Qed.

Lemma stopped_bind_quiet {A B} (m : M A) (k : A -> M B) (db : DB) :
  emits quiet m ->
  (forall a, result (m db) = Ok a -> stopped_early (k a (final_db (m db)))) ->
  stopped_early (bind m k db).
Proof.
  intros Hq Hk. unfold stopped_early.
  rewrite quiet_bind_posts, result_bind by exact Hq.
  destruct (result (m db)) as [a|e]; [now apply Hk|].
  split; [reflexivity | now exists e].
Qed.

Lemma sent_bind_quiet (us : list CSVUser.t) {A B} (m : M A) (k : A -> M B)
    (db : DB) :
  emits quiet m ->
  (forall a, result (m db) = Ok a -> resets_sent us (k a (final_db (m db)))) ->
  resets_sent us (bind m k db).
Proof.
  intros Hq Hk. unfold resets_sent.
  rewrite quiet_bind_posts, result_bind by exact Hq.
  destruct (result (m db)) as [a|e]; [now apply Hk|].
  right. exists e, 0. split; reflexivity.
Qed.

(** The requests of the steps after the check. *)
Lemma posts_after_check (env : Env) (school : School.t) (payment : Paiement.t)
    (us : list CSVUser.t) (db : DB) :
  resets_sent us (after_check env school payment us db).
Proof.
  unfold after_check.
  apply sent_bind_quiet; [now apply emits_print | intros _ _].
  apply sent_bind_quiet; [now apply emits_print | intros _ _].
  apply sent_bind_quiet; [apply quiet_create_accounts | intros _ _].
  unfold after_accounts.
  apply sent_bind_quiet; [now apply emits_print | intros _ _].
  apply sent_bind_quiet; [now apply emits_print | intros _ _].
  cbn [print emit final_db fst snd].
  set (d := final_db (for_each us (create_account env school) db)).
  unfold resets_sent. rewrite trace_bind, result_bind.
  destruct (resets_loop env us d) as [Hd [[Hr Hp]|(e & k & Hr & Hp)]].
  - left. rewrite Hr, posts_of_app, Hp.
    rewrite (posts_of_quiet _ (quiet_after_resets _ _ _ _)).
    apply app_nil_r.
  - right. exists e, k. rewrite Hr. split; [reflexivity | exact Hp].
Qed.

Lemma posts_transaction_body (env : Env) (db : DB) :
  match result (read_file env db) with
  | Ok us => resets_sent us (transaction_body env db)
  | Raise _ => stopped_early (transaction_body env db)
  end.
Proof.
  rewrite transaction_body_unfold.
  assert (Hparse : emits quiet (read_file env))
    by (apply emits_read_file; intros [] He; try discriminate He; reflexivity).
  destruct (result (read_file env db)) as [us|e] eqn:E.
  - apply sent_bind_quiet; [now apply emits_get | intros school _].
    rewrite readonly_School_get.
    apply sent_bind_quiet; [now apply emits_get | intros payment _].
    rewrite readonly_Paiement_get.
    apply sent_bind_quiet; [exact Hparse | intros us' Hus'].
    rewrite E in Hus'. injection Hus' as <-. rewrite readonly_read_file.
    apply sent_bind_quiet; [now apply emits_print | intros _ _].
    apply sent_bind_quiet; [now apply emits_print | intros _ _].
    apply sent_bind_quiet; [now apply emits_check_constraints | intros _ _].
    apply posts_after_check.
  - apply stopped_bind_quiet; [now apply emits_get | intros school _].
    rewrite readonly_School_get.
    apply stopped_bind_quiet; [now apply emits_get | intros payment _].
    rewrite readonly_Paiement_get.
    apply stopped_bind_quiet; [exact Hparse | intros us' Hus'].
    rewrite E in Hus'. discriminate.
Qed.

(** C10: the response to a password-reset request is dropped.  Replacing
    the responses of the test client by any others leaves the result of the
    transaction and its final database as they are; when every request gets
    a response, whatever its status, the reset loop ends normally; a
    transaction that returns has sent, in order, one request per parsed user
    with that user's username and email, and no run sends a request that is
    not one of these, in that order. *)
Theorem reset_responses_discarded (env : Env) (db : DB) :
  (forall c,
      (forall p d s, forget_response (c p d s)
                     = forget_response (client_post env p d s)) ->
      result (transaction (with_client c env) db) = result (transaction env db) /\
      final_db (transaction (with_client c env) db)
      = final_db (transaction env db)) /\
  (answers env ->
   forall us d,
     result (for_each us (reset_password env) d) = Ok tt /\
     final_db (for_each us (reset_password env) d) = d) /\
  (forall us,
      result (read_file env db) = Ok us ->
      exists k,
        posts_of (trace (transaction env db))
        = firstn k (map reset_request us)) /\
  (result (transaction env db) = Ok tt ->
   exists us,
     result (read_file env db) = Ok us /\
     posts_of (trace (transaction env db)) = map reset_request us).
Proof.
  pose proof (posts_transaction_body env db) as Hp.
  unfold resets_sent, stopped_early in Hp.
  split; [intros c Hc; now apply (same_atomic _ _ db), same_transaction_body|].
  split; [intros Hans us d; now apply resets_answered|].
  unfold transaction. rewrite atomic_trace, atomic_result.
  split.
  - intros us Hus. rewrite Hus in Hp.
    destruct Hp as [Hp|(e & k & _ & Hp)].
    + exists (List.length (map reset_request us)). now rewrite firstn_all.
    + now exists k.
  - intros Hok. destruct (result (read_file env db)) as [us|e].
    + exists us. split; [reflexivity|].
      destruct Hp as [Hp|(e & k & He & _)]; [exact Hp | congruence].
    + destruct Hp as [_ [e' He']]. congruence.
Qed.

Lemma reset_responses_witness :
  result (transaction (with_client Sample.server_error Sample.env) Sample.db)
  = Ok tt /\
  posts_of (trace (transaction Sample.env Sample.db))
  = [ ("/users/reset_password/",
       [("pseudo", "john-doe"); ("email", "john.doe@example.org")]);
      ("/users/reset_password/",
       [("pseudo", "jane-m-roe"); ("email", "jane.m.roe@example.org")]) ].
Proof.
  destruct (reset_responses_discarded Sample.env Sample.db)
    as (Hsame & _ & _ & Hposts).
  split.
  - rewrite (proj1 (Hsame Sample.server_error (fun _ _ _ => eq_refl))).
    reflexivity.
  - destruct (Hposts eq_refl) as (us & Hus & ->).
    injection Hus as <-. reflexivity.
Defined.

(** A view that raises is another matter: the exception goes through the
    test client and aborts the batch like any other. *)
Example crashing_view_aborts :
  result (transaction (with_client Sample.crash Sample.env) Sample.db)
  = Raise (Exception "view error") /\
  final_db (transaction (with_client Sample.crash Sample.env) Sample.db)
  = Sample.db /\
  posts_of (trace (transaction (with_client Sample.crash Sample.env) Sample.db))
  = [reset_request Sample.john].
Proof. repeat split. Qed.

(** ** The order of the steps *)

Lemma in_phase_le (k k' : nat) (a b : Event) :
  k <= k' -> in_phase k a -> in_phase k' b -> phase_le a b.
Proof.
  intros Hk [Ha|Ha] [Hb|Hb] i j Hi Hj; congruence.
Qed.

Lemma staged_nil (lo : nat) : staged lo [].
Proof. split; constructor. Qed.

Lemma staged_weaken (lo lo' : nat) (t : list Event) :
  lo' <= lo -> staged lo t -> staged lo' t.
Proof.
  intros Hle [Hs Hb]. split; [exact Hs|].
  eapply Forall_impl; [|exact Hb]. intros e He i Hi. specialize (He i Hi). lia.
Qed.

Lemma staged_app (k : nat) (t1 t2 : list Event) :
  Forall (in_phase k) t1 -> staged k t2 -> staged k (t1 ++ t2).
Proof.
  intros H1 [Hs Hb]. induction H1 as [|e t1 He H1 IH]; [now split|].
  destruct IH as [IHs IHb]. split; cbn [app].
  - constructor; [exact IHs|].
    apply Forall_app. split.
    + eapply Forall_impl; [|exact H1]. intros b Hb'.
      now apply in_phase_le with k k.
    + eapply Forall_impl; [|exact Hb]. intros b Hb' i j Hi Hj.
      destruct He as [He|He]; [congruence|].
      rewrite He in Hi. injection Hi as <-. now apply Hb'.
  - constructor; [|exact IHb].
    intros i Hi. destruct He as [He|He]; [congruence|].
    rewrite He in Hi. injection Hi as <-. lia.
Qed.

Lemma staged_precedes (lo : nat) (t : list Event) (a b : Event) :
  staged lo t -> precedes t a b -> phase_le a b.
Proof.
  intros [Hs _] (l1 & l2 & l3 & ->).
  induction l1 as [|x l1 IH]; cbn [app] in Hs.
  - apply StronglySorted_inv in Hs as [_ Hall].
    rewrite Forall_forall in Hall. apply Hall.
    apply in_or_app. right. now left.
  - apply StronglySorted_inv in Hs as [Hs _]. now apply IH.
Qed.

Lemma runs_staged_emits (lo k : nat) {A} (m : M A) :
  lo <= k -> emits (in_phase k) m -> runs_staged lo m.
Proof.
  intros Hle H db. apply staged_weaken with k; [exact Hle|].
  rewrite <- (app_nil_r (trace (m db))). apply staged_app; [apply H|].
  apply staged_nil.
Qed.

Lemma runs_staged_bind (lo k : nat) {A B} (m : M A) (f : A -> M B) :
  lo <= k -> emits (in_phase k) m -> (forall a, runs_staged k (f a)) ->
  runs_staged lo (bind m f).
Proof.
  intros Hle Hm Hf db. apply staged_weaken with k; [exact Hle|].
  rewrite trace_bind. destruct (result (m db)) as [a|e].
  - apply staged_app; [apply Hm | apply Hf].
  - rewrite <- (app_nil_r (trace (m db))).
    apply staged_app; [apply Hm | apply staged_nil].
Qed.

Lemma in_phase_print (k : nat) (line : string) : in_phase k (EPrint line).
Proof. now left. Qed.

Lemma runs_staged_after_resets (env : Env) (payment : Paiement.t)
    (us : list CSVUser.t) :
  runs_staged 3 (after_resets env payment us).
Proof.
  apply runs_staged_emits with 4; [lia|]. unfold after_resets.
  apply emits_bind; [apply emits_print, in_phase_print | intro].
  apply emits_bind; [|intro; apply emits_print, in_phase_print].
  destruct (ARTICLES (settings env)); [apply emits_ret|].
  apply emits_bind; [apply emits_print, in_phase_print | intro].
  apply emits_bind; [|intro; apply emits_print, in_phase_print].
  apply emits_for_each. intro u. apply emits_add_subscription.
  intros e He. now right.
Qed.

Lemma runs_staged_after_check (env : Env) (school : School.t)
    (payment : Paiement.t) (us : list CSVUser.t) :
  runs_staged 1 (after_check env school payment us).
Proof.
  unfold after_check.
  apply runs_staged_bind with 1;
    [lia | apply emits_print, in_phase_print | intro].
  apply runs_staged_bind with 2;
    [lia | apply emits_print, in_phase_print | intro].
  apply runs_staged_bind with 2; [lia | | intro].
  { apply emits_for_each. intro u.
    apply emits_create_account; intros; now right. }
  unfold after_accounts.
  apply runs_staged_bind with 2;
    [lia | apply emits_print, in_phase_print | intro].
  apply runs_staged_bind with 3;
    [lia | apply emits_print, in_phase_print | intro].
  apply runs_staged_bind with 3; [lia | | intro].
  { apply emits_for_each. intro u. apply emits_reset_password.
    intros; now right. }
  apply runs_staged_after_resets.
Qed.

Lemma runs_staged_transaction_body (env : Env) :
  runs_staged 0 (transaction_body env).
Proof.
  rewrite transaction_body_unfold.
  apply runs_staged_bind with 0; [lia | apply emits_get; now right | intro].
  apply runs_staged_bind with 0; [lia | apply emits_get; now right | intro].
  apply runs_staged_bind with 0; [lia | | intro].
  { apply emits_read_file. intros [] He; try discriminate He.
    - now right.
    - destruct q; try discriminate He; now right. }
  apply runs_staged_bind with 0;
    [lia | apply emits_print, in_phase_print | intro].
  apply runs_staged_bind with 1;
    [lia | apply emits_print, in_phase_print | intro].
  apply runs_staged_bind with 1;
    [lia | apply emits_check_constraints; now right | intro].
  apply runs_staged_after_check.
Qed.

Lemma trace_check_constraints (usernames : list string) (db : DB) :
  trace (check_constraints usernames db)
  = [ESelect (QAdherentPseudoIn usernames)].
Proof.
  rewrite check_constraints_run. now destruct (filter _ (users db)).
Qed.

Lemma trace_read_file_open (env : Env) (db : DB) :
  exists t, trace (read_file env db) = EOpen (PATH (settings env)) :: t.
Proof.
  unfold read_file. rewrite trace_bind. cbn [emit result trace fst snd app].
  eexists. reflexivity.
Qed.

(** A run either writes nothing, or has parsed the file and passed the check
    before anything else happens. *)
Lemma body_anatomy (env : Env) (db : DB) :
  Forall no_write (trace (transaction_body env db)) \/
  exists school payment us t0 t1,
    result (read_file env db) = Ok us /\
    result (check_constraints (map CSVUser.username us) db) = Ok tt /\
    trace (transaction_body env db)
    = t0 ++ EOpen (PATH (settings env)) :: t1
         ++ ESelect (QAdherentPseudoIn (map CSVUser.username us))
         :: trace (after_check env school payment us db) /\
    Forall no_write t0 /\ Forall no_write t1.
Proof.
  assert (Hs : emits no_write (School_get (SCHOOL_ID (settings env))))
    by now apply emits_get.
  assert (Hp : emits no_write (Paiement_get (PAYMENT_METHOD (settings env))))
    by now apply emits_get.
  assert (Hr : emits no_write (read_file env))
    by (apply emits_read_file; intros [] He; try discriminate He; reflexivity).
  remember (trace (transaction_body env db)) as t eqn:Et.
  rewrite transaction_body_unfold, trace_bind in Et.
  destruct (result (School_get _ db)) as [school|e1];
    [|left; subst t; apply Hs].
  rewrite readonly_School_get, trace_bind in Et.
  destruct (result (Paiement_get _ db)) as [payment|e2];
    [|left; subst t; apply Forall_app; split; [apply Hs | apply Hp]].
  rewrite readonly_Paiement_get, trace_bind in Et.
  destruct (result (read_file env db)) as [us|e3] eqn:Er;
    [|left; subst t; apply Forall_app; split; [apply Hs|];
      apply Forall_app; split; [apply Hp | apply Hr]].
  rewrite readonly_read_file, trace_bind in Et.
  cbn [print emit result final_db trace fst snd] in Et.
  rewrite trace_bind in Et. cbn [print emit result final_db trace fst snd] in Et.
  rewrite trace_bind, trace_check_constraints in Et.
  destruct (result (check_constraints _ db)) as [[]|e4] eqn:Ec.
  - right. rewrite readonly_check_constraints in Et.
    destruct (trace_read_file_open env db) as (t1 & Ht).
    pose proof (Hr db) as Hr'. rewrite Ht in Hr', Et.
    apply Forall_cons_iff in Hr' as [_ Hr'].
    exists school, payment, us.
    exists (trace (School_get (SCHOOL_ID (settings env)) db)
            ++ trace (Paiement_get (PAYMENT_METHOD (settings env)) db)).
    exists (t1 ++ [EPrint (str_of_nat (List.length us) ++ " users detected")%string;
                   EPrint "Verifying that no conflict occurs for usernames"]).
    split; [reflexivity|]. split; [exact Ec|]. split.
    + subst t. rewrite <- !app_assoc. cbn [app]. reflexivity.
    + split; [apply Forall_app; split; [apply Hs | apply Hp]|].
      apply Forall_app. split; [exact Hr'|]. repeat constructor.
  - left. subst t. apply Forall_app; split; [apply Hs|].
    apply Forall_app; split; [apply Hp|].
    apply Forall_app; split; [apply Hr|]. repeat constructor.
Qed.

(** C3: the steps come in a fixed order.  Nothing of the CSV file is read
    after the uniqueness check has run; no row is written before it; no
    account is inserted after a reset request was sent; no request is sent
    after an invoice or a line item was written.  And a write, whichever it
    is, happens only after the file was opened and fully parsed and the check
    on the parsed usernames, which comes after the opening of the file,
    returned without raising. *)
Theorem import_order (env : Env) (db : DB) :
  let t := trace (transaction env db) in
  (forall a b, precedes t a b -> is_check a = true -> is_parse b = true -> False) /\
  (forall a b, precedes t a b -> is_db_write a = true -> is_check b = true -> False) /\
  (forall a b,
      precedes t a b -> is_reset a = true -> is_account_creation b = true ->
      False) /\
  (forall a b,
      precedes t a b -> is_invoice_write a = true -> is_reset b = true ->
      False) /\
  (forall w,
      In w t -> is_db_write w = true ->
      exists us,
        result (read_file env db) = Ok us /\
        result (check_constraints (map CSVUser.username us) db) = Ok tt /\
        precedes t (EOpen (PATH (settings env)))
                 (ESelect (QAdherentPseudoIn (map CSVUser.username us))) /\
        precedes t (ESelect (QAdherentPseudoIn (map CSVUser.username us))) w).
Proof.
  cbv zeta. unfold transaction. rewrite atomic_trace.
  pose proof (runs_staged_transaction_body env db) as Hst.
  assert (Hord : forall a b i j,
             precedes (trace (transaction_body env db)) a b ->
             phase a = Some i -> phase b = Some j -> i <= j).
  { intros a b i j Hab. now apply (staged_precedes _ _ _ _ Hst Hab). }
  split; [|split; [|split; [|split]]].
  - intros a b Hab Ha Hb.
    destruct a as [?|?|qa|?|?|?|?|?|?|?]; try discriminate Ha.
    destruct qa; try discriminate Ha.
    destruct b as [?|?|qb|?|?|?|?|?|?|?]; try discriminate Hb;
      [|destruct qb; try discriminate Hb];
      specialize (Hord _ _ _ _ Hab eq_refl eq_refl); lia.
  - intros a b Hab Ha Hb.
    destruct b as [?|?|qb|?|?|?|?|?|?|?]; try discriminate Hb.
    destruct qb; try discriminate Hb.
    destruct a; try discriminate Ha;
      specialize (Hord _ _ _ _ Hab eq_refl eq_refl); lia.
  - intros a b Hab Ha Hb.
    destruct a; try discriminate Ha. destruct b; try discriminate Hb.
    specialize (Hord _ _ _ _ Hab eq_refl eq_refl); lia.
  - intros a b Hab Ha Hb.
    destruct b; try discriminate Hb.
    destruct a; try discriminate Ha;
      specialize (Hord _ _ _ _ Hab eq_refl eq_refl); lia.
  - intros w Hw Hwr.
    destruct (body_anatomy env db)
      as [Hno|(school & payment & us & t0 & t1 & Hus & Hck & Ht & H0 & H1)].
    + rewrite Forall_forall in Hno. specialize (Hno w Hw).
      unfold no_write in Hno. congruence.
    + exists us. split; [exact Hus|]. split; [exact Hck|].
      rewrite Ht in Hw |- *. split.
      * exists t0, t1, (trace (after_check env school payment us db)).
        reflexivity.
      * apply in_app_or in Hw as [Hw|[Hw|Hw]].
        { rewrite Forall_forall in H0. specialize (H0 w Hw).
          unfold no_write in H0. congruence. }
        { subst w. discriminate Hwr. }
        apply in_app_or in Hw as [Hw|[Hw|Hw]].
        { rewrite Forall_forall in H1. specialize (H1 w Hw).
          unfold no_write in H1. congruence. }
        { subst w. discriminate Hwr. }
        apply in_split in Hw as (l2 & l3 & Hsplit).
        exists (t0 ++ EOpen (PATH (settings env)) :: t1), l2, l3.
        rewrite Hsplit, <- app_assoc. reflexivity.
Qed.

Lemma import_order_witness :
  exists us,
    result (read_file Sample.env Sample.db) = Ok us /\
    result (check_constraints (map CSVUser.username us) Sample.db) = Ok tt.
Proof.
  destruct (proj2 (proj2 (proj2 (proj2 (import_order Sample.env Sample.db))))
              (EInsertVente
                 (Vente.mk (Some 2%Z) 2 "Adhesion" 1000 0 0 1 0 4)))
    as (us & H1 & H2 & _).
  - vm_compute. repeat (first [left; reflexivity | right]).
  - reflexivity.
  - exists us. split; [exact H1 | exact H2].
Defined.

(** ** Invoices and line items *)

Lemma next_pk_above (pks : list Z) (k : Z) :
  In k pks -> (k < next_pk pks)%Z.
Proof.
  unfold next_pk. induction pks as [|x pks IH]; cbn [fold_right In];
    [contradiction|].
  intros [<-|H]; [lia|]. specialize (IH H). lia.
Qed.

Lemma fresh_pks_spec (base : list Z) (fs : list Facture.t) :
  fresh_pks base fs ->
  NoDup (map Facture.pk fs) /\
  forall f, In f fs -> ~ In (Facture.pk f) base.
Proof.
  revert base. induction fs as [|f fs IH]; intros base H; simpl in *.
  - split; [constructor | contradiction].
  - destruct H as [Hf Hrest]. destruct (IH _ Hrest) as [Hnd Hout]. split.
    + constructor; [|exact Hnd].
      intros Hin. apply in_map_iff in Hin as (g & Hg & Hin).
      apply (Hout g Hin). rewrite Hg. apply in_or_app. right. now left.
    + intros g [<-|Hg].
      * intros Hin. specialize (Hf _ Hin). lia.
      * intros Hin. apply (Hout g Hg). apply in_or_app. now left.
Qed.

Lemma replace_last_facture (old : list Facture.t) (f g : Facture.t) :
  Facture.pk f = next_pk (map Facture.pk old) ->
  map (fun r => if Z.eqb (Facture.pk r) (Facture.pk f) then g else r)
      (old ++ [f])
  = old ++ [g].
Proof.
  intros Hf. rewrite map_app. cbn [map]. rewrite Z.eqb_refl. f_equal.
  rewrite <- (map_id old) at 2. apply map_ext_in. intros r Hr.
  destruct (Z.eqb_spec (Facture.pk r) (Facture.pk f)) as [E|E]; [|reflexivity].
  pose proof (next_pk_above (map Facture.pk old) (Facture.pk r)
                (in_map _ _ _ Hr)). lia.
Qed.

Lemma line_item_articles (d d' : DB) (k : Z) (art : Z * Z) (v : Vente.t) :
  articles d = articles d' -> line_item d k art v -> line_item d' k art v.
Proof.
  intros E (a & Ha & H). exists a. rewrite <- E. auto.
Qed.

Lemma readonly_build_purchases (arts : list (Z * Z)) (invoice : Facture.t) :
  forall purchases total,
    readonly (build_purchases arts invoice purchases total).
Proof.
  induction arts as [|art arts IH]; intros purchases total; simpl.
  - apply readonly_ret.
  - apply readonly_bind; [apply readonly_Article_get | intro; apply IH].
Qed.

Lemma build_purchases_Ok (arts : list (Z * Z)) (invoice : Facture.t) (db : DB) :
  forall purchases total built,
    result (build_purchases arts invoice purchases total db) = Ok built ->
    exists new,
      fst built = purchases ++ new /\
      Forall2 (fun art v => line_item db (Facture.pk invoice) art v /\
                            Vente.pk v = None) arts new.
Proof.
  induction arts as [|art arts IH]; intros purchases total built H.
  - simpl in H. injection H as <-. exists []. simpl.
    rewrite app_nil_r. auto.
  - cbn [build_purchases] in H. rewrite result_bind in H.
    destruct (result (Article_get (fst art) db)) as [a|e] eqn:Ea;
      [|discriminate].
    rewrite readonly_Article_get in H. cbv zeta in H.
    apply IH in H as (new & Hb & Hnew).
    apply Article_get_Ok in Ea as [Hin Hpk].
    eexists (_ :: new). rewrite Hb, <- app_assoc. split; [reflexivity|].
    constructor; [|exact Hnew]. split; [|reflexivity].
    exists a. cbn. repeat split; auto.
Qed.

Lemma Vente_save_new (v : Vente.t) (db : DB) :
  Vente.pk v = None ->
  Vente_save v db =
  (Ok tt,
   with_ventes
     (ventes db
      ++ [Vente.set_pk (Some (next_pk (opt_pks (map Vente.pk (ventes db))))) v])
     db,
   [EInsertVente
      (Vente.set_pk (Some (next_pk (opt_pks (map Vente.pk (ventes db))))) v)]).
Proof. intros H. unfold Vente_save. now rewrite H. Qed.

Lemma save_purchases (d0 : DB) (k : Z) :
  forall (arts : list (Z * Z)) (ps : list Vente.t) (db : DB),
    Forall2 (fun art v => line_item d0 k art v /\ Vente.pk v = None) arts ps ->
    let o := for_each ps (fun p => Vente_save (Vente.set_facture k p)) db in
    result o = Ok tt /\
    exists rows,
      final_db o = with_ventes (ventes db ++ rows) db /\
      Forall2 (line_item d0 k) arts rows.
Proof.
  intros arts ps db H. revert db.
  induction H as [|art p arts ps [Hli Hpk] _ IH]; intros db; cbv zeta.
  - split; [reflexivity|]. exists []. cbn. rewrite app_nil_r.
    split; [now destruct db | constructor].
  - cbn [for_each]. rewrite result_bind, final_db_bind.
    rewrite (Vente_save_new (Vente.set_facture k p) db Hpk).
    cbn [result final_db fst snd].
    match goal with
    | |- context [with_ventes (ventes db ++ [?r]) db] => set (row := r)
    end.
    destruct (IH (with_ventes (ventes db ++ [row]) db)) as (Hr & rows & Hf & Hrows).
    split; [exact Hr|].
    exists (row :: rows). rewrite Hf. cbn [ventes with_ventes].
    rewrite <- app_assoc. split; [reflexivity|].
    constructor; [|exact Hrows].
    destruct Hli as (a & Ha & Hpka & _ & Hrest).
    exists a. subst row. cbn. repeat split; try tauto.
Qed.

Lemma Facture_save_last (old : list Facture.t) (f g : Facture.t) (db : DB) :
  factures db = old ++ [f] ->
  Facture.pk f = next_pk (map Facture.pk old) ->
  Facture.pk g = Facture.pk f ->
  result (Facture_save g db) = Ok tt /\
  final_db (Facture_save g db) = with_factures (old ++ [g]) db.
Proof.
  intros Hdb Hf Hg. split; [reflexivity|].
  unfold Facture_save, final_db. cbn [fst snd].
  now rewrite Hdb, Hg, replace_last_facture.
Qed.

Lemma add_subscription_Ok (env : Env) (payment : Paiement.t) (u : CSVUser.t)
    (db : DB) :
  result (add_subscription env payment u db) = Ok tt ->
  exists f vs,
    factures (final_db (add_subscription env payment u db))
    = factures db ++ [f] /\
    ventes (final_db (add_subscription env payment u db)) = ventes db ++ vs /\
    articles (final_db (add_subscription env payment u db)) = articles db /\
    Facture.pk f = next_pk (map Facture.pk (factures db)) /\
    (exists account,
        In account (users db) /\
        User.pseudo account = CSVUser.username u /\
        Facture.user f = User.pk account) /\
    Facture.paiement f = Paiement.pk payment /\
    Facture.valid f = true /\
    Facture.control f = true /\
    Forall2 (line_item db (Facture.pk f)) (ARTICLES (settings env)) vs.
Proof.
  intros H. unfold add_subscription in *.
  apply bind_Ok_inv in H as (account & Eu & H & -> & _).
  rewrite readonly_User_get in *. apply User_get_Ok in Eu as [Hacc Hps].
  apply bind_Ok_inv in H as (f0 & Ef & H & -> & _).
  set (db1 := final_db (Facture_create account payment db)) in *.
  assert (Hf0 : f0 = Facture.mk (next_pk (map Facture.pk (factures db)))
                                (User.pk account) (Paiement.pk payment)
                                false false)
    by (cbn in Ef; now injection Ef as <-).
  assert (Hdb1 : factures db1 = factures db ++ [f0])
    by (subst f0; reflexivity).
  assert (Hpk0 : Facture.pk f0 = next_pk (map Facture.pk (factures db)))
    by (subst f0; reflexivity).
  apply bind_Ok_inv in H as (built & Eb & H & -> & _).
  rewrite readonly_build_purchases in *.
  apply build_purchases_Ok in Eb as (new & Hnew & Hitems).
  cbn [app] in Hnew. cbv zeta in *. rewrite Hnew in *.
  apply bind_Ok_inv in H as ([] & _ & H & -> & _).
  destruct (Facture_save_last _ f0 f0 db1 Hdb1 Hpk0 eq_refl) as [_ Hs1].
  set (db2 := final_db (Facture_save f0 db1)) in *.
  apply bind_Ok_inv in H as ([] & _ & H & -> & _).
  destruct (save_purchases db1 (Facture.pk f0) _ _ db2 Hitems)
    as (_ & rows & Hs2 & Hrows).
  set (db3 := final_db (for_each new _ db2)) in *.
  set (f1 := Facture.set_control true (Facture.set_valid true f0)).
  assert (Hdb3 : factures db3 = factures db ++ [f0])
    by (rewrite Hs2, Hs1; reflexivity).
  destruct (Facture_save_last _ f0 f1 db3 Hdb3 Hpk0 eq_refl) as [_ Hs3].
  exists f1, rows. rewrite Hs3, Hs2, Hs1.
  cbn [factures ventes articles with_factures with_ventes].
  split; [reflexivity|]. split; [reflexivity|]. split; [reflexivity|].
  split; [exact Hpk0|].
  split; [exists account; subst f0; auto|].
  split; [subst f0; reflexivity|]. split; [reflexivity|]. split; [reflexivity|].
  eapply Forall2_impl; [|exact Hrows].
  intros art v Hv. apply (line_item_articles db1 db); [reflexivity | exact Hv].
Qed.

Lemma subscriptions_Ok (env : Env) (payment : Paiement.t) (us : list CSVUser.t) :
  Paiement.pk payment = PAYMENT_METHOD (settings env) ->
  forall db,
    result (for_each us (add_subscription env payment) db) = Ok tt ->
    exists invoices items,
      factures (final_db (for_each us (add_subscription env payment) db))
      = factures db ++ invoices /\
      ventes (final_db (for_each us (add_subscription env payment) db))
      = ventes db ++ List.concat items /\
      articles (final_db (for_each us (add_subscription env payment) db))
      = articles db /\
      fresh_pks (map Facture.pk (factures db)) invoices /\
      Forall2 (invoice_of env db) us invoices /\
      Forall2 (fun f vs => Forall2 (line_item db (Facture.pk f))
                                   (ARTICLES (settings env)) vs)
              invoices items.
Proof.
  intros Hpay. induction us as [|u us IH]; intros db H.
  - exists [], []. cbn. rewrite !app_nil_r. repeat split; constructor.
  - cbn [for_each] in *.
    apply bind_Ok_inv in H as ([] & Hu & H & -> & _).
    pose proof (users_add_subscription env payment u db) as Husers.
    apply add_subscription_Ok in Hu
      as (f & vs & Hf & Hv & Ha & Hpk & Hacc & Hp & Hvalid & Hcontrol & Hitems).
    set (d1 := final_db (add_subscription env payment u db)) in *.
    destruct (IH d1 H) as (invoices & items & Hf' & Hv' & Ha' & Hfresh & Hinv & Hit).
    exists (f :: invoices), (vs :: items).
    rewrite Hf', Hv', Ha', Hf, Hv, Ha, <- !app_assoc. cbn [List.concat app].
    split; [reflexivity|]. split; [reflexivity|]. split; [reflexivity|].
    split; [|split].
    + cbn [fresh_pks]. split.
      * intros k Hk. rewrite Hpk. now apply next_pk_above.
      * rewrite Hf, map_app in Hfresh. exact Hfresh.
    + constructor.
      * split; [exact Hacc|]. split; [congruence|]. auto.
      * eapply Forall2_impl; [|exact Hinv].
        intros x g ((account & Hin & Hrest) & Hg). split; [|exact Hg].
        exists account. rewrite <- Husers. auto.
    + constructor; [exact Hitems|].
      eapply Forall2_impl; [|exact Hit].
      intros g ws Hws. eapply Forall2_impl; [|exact Hws].
      intros art v. now apply line_item_articles.
Qed.

Lemma create_account_tables (env : Env) (school : School.t) (u : CSVUser.t)
    (db0 : DB) :
  maintains (same_invoice_tables db0) (create_account env school u).
Proof.
  unfold create_account.
  apply maintains_bind.
  { intros db H. rewrite force_move_run.
    destruct (occupants _ db); exact H. }
  intros _ _ _. apply maintains_bind;
    [|intros; apply maintains_readonly, readonly_ret].
  intros db H. unfold Adherent_create, final_db.
  destruct (integrity env db _); exact H.
Qed.

Lemma no_articles_no_invoice (env : Env) (db0 : DB) :
  ARTICLES (settings env) = [] ->
  maintains (same_invoice_tables db0) (transaction_body env).
Proof.
  intros Hart. rewrite transaction_body_unfold.
  apply maintains_prologue. intros school payment us _.
  apply maintains_before_resets; [intro; apply create_account_tables|].
  unfold after_resets. rewrite Hart.
  apply maintains_readonly.
  apply readonly_bind; [apply readonly_print | intro].
  apply readonly_bind; [apply readonly_ret | intro; apply readonly_print].
Qed.

Lemma body_Ok (env : Env) (db : DB) :
  result (transaction_body env db) = Ok tt ->
  exists school payment us,
    result (read_file env db) = Ok us /\
    Paiement.pk payment = PAYMENT_METHOD (settings env) /\
    result (after_resets env payment us
              (final_db (for_each us (create_account env school) db))) = Ok tt /\
    final_db (transaction_body env db)
    = final_db (after_resets env payment us
                  (final_db (for_each us (create_account env school) db))).
Proof.
  intros H. rewrite transaction_body_unfold in *.
  apply bind_Ok_inv in H as (school & _ & H & -> & _).
  rewrite readonly_School_get in *.
  apply bind_Ok_inv in H as (payment & Hp & H & -> & _).
  rewrite readonly_Paiement_get in *. apply Paiement_get_Ok in Hp as [_ Hp].
  apply bind_Ok_inv in H as (us & Hus & H & -> & _).
  rewrite readonly_read_file in *.
  apply bind_Ok_inv in H as ([] & _ & H & -> & _).
  rewrite readonly_print in *.
  apply bind_Ok_inv in H as ([] & _ & H & -> & _).
  rewrite readonly_print in *.
  apply bind_Ok_inv in H as ([] & _ & H & -> & _).
  rewrite readonly_check_constraints in *.
  unfold after_check in *.
  apply bind_Ok_inv in H as ([] & _ & H & -> & _).
  rewrite readonly_print in *.
  apply bind_Ok_inv in H as ([] & _ & H & -> & _).
  rewrite readonly_print in *.
  apply bind_Ok_inv in H as ([] & _ & H & -> & _).
  unfold after_accounts in *.
  apply bind_Ok_inv in H as ([] & _ & H & -> & _).
  rewrite readonly_print in *.
  apply bind_Ok_inv in H as ([] & _ & H & -> & _).
  rewrite readonly_print in *.
  apply bind_Ok_inv in H as ([] & _ & H & -> & _).
  rewrite (readonly_for_each us (reset_password env)
             (readonly_reset_password env)) in *.
  exists school, payment, us. auto.
Qed.

Lemma users_subscriptions (env : Env) (payment : Paiement.t)
    (us : list CSVUser.t) (db : DB) :
  users (final_db (for_each us (add_subscription env payment) db)) = users db.
Proof.
  cut (maintains (fun d => users d = users db)
                 (for_each us (add_subscription env payment))).
  { intros H. now apply H. }
  apply maintains_for_each. intros u.
  apply maintains_users_only; [congruence | apply users_add_subscription].
Qed.

Lemma after_resets_Ok (env : Env) (payment : Paiement.t) (us : list CSVUser.t)
    (db : DB) :
  ARTICLES (settings env) <> [] ->
  result (after_resets env payment us db) = Ok tt ->
  result (for_each us (add_subscription env payment) db) = Ok tt /\
  final_db (after_resets env payment us db)
  = final_db (for_each us (add_subscription env payment) db).
Proof.
  intros Hart H. unfold after_resets in *.
  destruct (ARTICLES (settings env)) as [|a l]; [contradiction|].
  apply bind_Ok_inv in H as ([] & _ & H & -> & _).
  rewrite readonly_print in *.
  apply bind_Ok_inv in H as ([] & H & _ & -> & _).
  rewrite readonly_print.
  apply bind_Ok_inv in H as ([] & _ & H & -> & _).
  rewrite readonly_print in *.
  apply bind_Ok_inv in H as ([] & H & _ & -> & _).
  rewrite readonly_print. auto.
Qed.

(** ** The claim about invoices *)

(** C7: invoices depend on [ARTICLES].  With an empty list the transaction
    writes no invoice and no line item, and leaves both tables as they were.
    With a non-empty list, a transaction that returns has added one invoice
    per parsed user, in order, each with a new primary key, the account of
    that user, the payment method [PAYMENT_METHOD], valid and controlled, and
    for each invoice one line item per pair of [ARTICLES], in order, attached
    to it, with the name, price and durations of the catalog article and the
    quantity of the pair; nothing else was added. *)
Theorem invoices_follow_articles (env : Env) (db : DB) :
  (ARTICLES (settings env) = [] ->
   factures (final_db (transaction env db)) = factures db /\
   ventes (final_db (transaction env db)) = ventes db /\
   Forall (fun e => is_invoice_write e = false) (trace (transaction env db))) /\
  (ARTICLES (settings env) <> [] ->
   result (transaction env db) = Ok tt ->
   exists us invoices items,
     result (read_file env db) = Ok us /\
     factures (final_db (transaction env db)) = factures db ++ invoices /\
     ventes (final_db (transaction env db)) = ventes db ++ List.concat items /\
     NoDup (map Facture.pk invoices) /\
     (forall f, In f invoices ->
                ~ In (Facture.pk f) (map Facture.pk (factures db))) /\
     Forall2 (invoice_of env (final_db (transaction env db))) us invoices /\
     Forall2 (fun f vs => Forall2 (line_item db (Facture.pk f))
                                  (ARTICLES (settings env)) vs)
             invoices items).
Proof.
  split.
  - intros Hart. unfold transaction. rewrite atomic_trace.
    assert (Hquiet : Forall (fun e => is_invoice_write e = false)
                            (trace (transaction_body env db))).
    { apply (emits_transaction_body (fun e => is_invoice_write e = false)).
      - intros e _ He. destruct e; try reflexivity; now elim He.
      - intros Hne. contradiction.
      - reflexivity. }
    destruct (result (transaction_body env db)) as [[]|e] eqn:E.
    + rewrite (atomic_Ok _ _ _ E).
      destruct (no_articles_no_invoice env db Hart db) as (Hf & Hv & _).
      * repeat split.
      * auto.
    + rewrite (atomic_Raise _ _ _ E). auto.
  - intros Hart H. unfold transaction in *. rewrite atomic_result in H.
    rewrite (atomic_Ok _ _ _ H).
    destruct (body_Ok env db H) as (school & payment & us & Hus & Hp & Hr & ->).
    set (d2 := final_db (for_each us (create_account env school) db)) in *.
    assert (Hd2 : same_invoice_tables db d2).
    { apply (maintains_for_each (same_invoice_tables db)).
      - intro u. apply create_account_tables.
      - repeat split. }
    destruct Hd2 as (Hf2 & Hv2 & Ha2).
    destruct (after_resets_Ok env payment us d2 Hart Hr) as [Hloop ->].
    pose proof (users_subscriptions env payment us d2) as Husers.
    destruct (subscriptions_Ok env payment us Hp d2 Hloop)
      as (invoices & items & Hf & Hv & _ & Hfresh & Hinv & Hitems).
    exists us, invoices, items.
    rewrite Hf, Hv, Hf2, Hv2. rewrite Hf2 in Hfresh.
    destruct (fresh_pks_spec _ _ Hfresh) as [Hnd Hnew].
    split; [exact Hus|]. split; [reflexivity|]. split; [reflexivity|].
    split; [exact Hnd|]. split; [exact Hnew|]. split.
    + eapply Forall2_impl; [|exact Hinv].
      intros u f ((account & Hin & Hrest) & Hg). split; [|exact Hg].
      exists account. rewrite Husers. auto.
    + eapply Forall2_impl; [|exact Hitems].
      intros f vs Hvs. eapply Forall2_impl; [|exact Hvs].
      intros art v. now apply line_item_articles.
Qed.

Lemma invoices_witness :
  (factures (final_db (transaction Sample.no_article_env Sample.db)) = [] /\
   ventes (final_db (transaction Sample.no_article_env Sample.db)) = [] /\
   Forall (fun e => is_invoice_write e = false)
          (trace (transaction Sample.no_article_env Sample.db))) /\
  exists us invoices items,
    result (read_file Sample.env Sample.db) = Ok us /\
    factures (final_db (transaction Sample.env Sample.db))
    = factures Sample.db ++ invoices /\
    ventes (final_db (transaction Sample.env Sample.db))
    = ventes Sample.db ++ List.concat items /\
    List.length invoices = List.length us.
Proof.
  split.
  - exact (proj1 (invoices_follow_articles Sample.no_article_env Sample.db)
                 eq_refl).
  - destruct (proj2 (invoices_follow_articles Sample.env Sample.db))
      as (us & invoices & items & H1 & H2 & H3 & _ & _ & H4 & _).
    + discriminate.
    + reflexivity.
    + exists us, invoices, items. repeat split; auto.
      symmetry. exact (Forall2_length H4).
Defined.

Example invoices_of_the_sample :
  map Facture.user (factures (final_db (transaction Sample.env Sample.db)))
  = [4%Z; 5%Z] /\
  map (fun v => (Vente.facture v, Vente.name v, Vente.prix v, Vente.number v))
      (ventes (final_db (transaction Sample.env Sample.db)))
  = [(1%Z, "Adhesion", 1000%Z, 4%Z); (2%Z, "Adhesion", 1000%Z, 4%Z)] /\
  result (transaction Sample.no_article_env Sample.db) = Ok tt.
Proof. repeat split. Qed.

(** * Further properties *)

(** ** Usernames *)

Lemma string_length_append (s1 s2 : string) :
  String.length (s1 ++ s2) = String.length s1 + String.length s2.
Proof. induction s1 as [|c s1 IH]; simpl; [reflexivity | now rewrite IH]. Qed.

Lemma mem_replace_old (old new : ascii) (s : string) :
  old <> new -> PyStr.mem old (PyStr.replace old new s) = false.
Proof.
  intros Hne. induction s as [|c s IH]; simpl; [reflexivity|].
  rewrite IH, orb_false_r.
  destruct (Ascii.eqb_spec c old) as [->|Hc].
  - apply Ascii.eqb_neq. congruence.
  - now apply Ascii.eqb_neq.
Qed.

Lemma mem_replace_other (c old new : ascii) (s : string) :
  c <> old -> c <> new ->
  PyStr.mem c (PyStr.replace old new s) = PyStr.mem c s.
Proof.
  intros Ho Hn. induction s as [|d s IH]; simpl; [reflexivity|].
  rewrite IH. f_equal.
  destruct (Ascii.eqb_spec d old) as [->|Hd]; [|reflexivity].
  rewrite (proj2 (Ascii.eqb_neq new c)) by congruence.
  now rewrite (proj2 (Ascii.eqb_neq old c)) by congruence.
Qed.

Lemma replace_absent (old new : ascii) (s : string) :
  PyStr.mem old s = false -> PyStr.replace old new s = s.
Proof.
  induction s as [|c s IH]; simpl; [reflexivity|].
  intros H. apply orb_false_iff in H as [Hc Hs]. now rewrite Hc, IH.
Qed.

Lemma split_absent (sep : ascii) (s : string) :
  PyStr.mem sep s = false -> PyStr.split sep s = [s].
Proof.
  induction s as [|c s IH]; simpl; [reflexivity|].
  intros H. apply orb_false_iff in H as [Hc Hs]. now rewrite Hc, IH.
Qed.

Lemma split_at_first (sep : ascii) (w rest : string) :
  PyStr.mem sep w = false ->
  PyStr.split sep (w ++ String sep rest) = w :: PyStr.split sep rest.
Proof.
  induction w as [|c w IH]; simpl.
  - intros _. now rewrite Ascii.eqb_refl.
  - intros H. apply orb_false_iff in H as [Hc Hw]. now rewrite Hc, IH.
Qed.

(** X1: a username holds no dot and no at sign, and is never longer than the
    address it comes from. *)
Theorem username_alphabet (email username : string) :
  get_username email = Ok username ->
  PyStr.mem "." username = false /\
  PyStr.mem "@" username = false /\
  String.length username <= String.length email.
Proof.
  intros H. destruct (get_username_total email) as (local & E & Hat & Hl).
  rewrite E in H. injection H as <-.
  split; [now apply mem_replace_old|].
  split; [now rewrite mem_replace_other|].
  rewrite replace_length.
  destruct Hl as [->|(rest & ->)]; [reflexivity|].
  rewrite string_length_append. lia.
Qed.

Lemma username_alphabet_witness :
  PyStr.mem "." "jane-m-roe" = false /\
  PyStr.mem "@" "jane-m-roe" = false /\
  String.length "jane-m-roe" <= String.length "jane.m.roe@example.org".
Proof.
  exact (username_alphabet "jane.m.roe@example.org" "jane-m-roe" eq_refl).
Defined.

(** X2: the username depends on the local part of the address only, the
    domain plays no role; and a username is its own username, so that
    deriving it twice changes nothing. *)
Theorem username_of_local_part :
  (forall local domain,
      PyStr.mem "@" local = false ->
      get_username (local ++ "@" ++ domain) = get_username local) /\
  (forall email username,
      get_username email = Ok username ->
      get_username username = Ok username).
Proof.
  split.
  - intros local domain H. unfold get_username.
    change (local ++ "@" ++ domain)%string
      with (local ++ String "@" domain)%string.
    now rewrite (split_at_first _ _ _ H), (split_absent _ _ H).
  - intros email username H.
    destruct (get_username_total email) as (local & E & Hat & _).
    rewrite E in H. injection H as <-.
    unfold get_username.
    rewrite split_absent by now rewrite mem_replace_other.
    cbn [getitem nth_error].
    rewrite (replace_absent "." "-"); [reflexivity|].
    now apply mem_replace_old.
Qed.

Lemma username_of_local_part_witness :
  get_username "jane.m.roe@example.org" = get_username "jane.m.roe" /\
  get_username "jane-m-roe" = Ok "jane-m-roe".
Proof.
  split.
  - exact (proj1 username_of_local_part "jane.m.roe" "example.org" eq_refl).
  - exact (proj2 username_of_local_part "jane.m.roe@example.org" "jane-m-roe"
                 eq_refl).
Defined.

(** ** What the uniqueness check looks at *)

Lemma filter_filter_sub {A} (f g : A -> bool) (l : list A) :
  (forall x, f x = true -> g x = true) ->
  filter f (filter g l) = filter f l.
Proof.
  intros H. induction l as [|x l IH]; simpl; [reflexivity|].
  destruct (g x) eqn:Gx; simpl.
  - now rewrite IH.
  - destruct (f x) eqn:Fx; [|exact IH]. rewrite (H x Fx) in Gx. discriminate.
Qed.

Lemma str_in_ext (l l' : list string) (x : string) :
  (forall y, In y l <-> In y l') -> str_in x l = str_in x l'.
Proof.
  intros H. apply Bool.eq_iff_eq_true. rewrite !str_in_In. apply H.
Qed.

(** X3: the uniqueness check depends on the set of usernames only, not on
    their order or on repetitions, so that a username given twice goes
    unnoticed; and it looks at adherents only, accounts of another kind are
    as if they were not there. *)
Theorem check_constraints_scope (usernames : list string) (db : DB) :
  (forall usernames',
      (forall x, In x usernames <-> In x usernames') ->
      result (check_constraints usernames' db)
      = result (check_constraints usernames db)) /\
  result (check_constraints usernames
            (with_users (filter User.is_adherent (users db)) db))
  = result (check_constraints usernames db).
Proof.
  split.
  - intros usernames' H. rewrite !check_constraints_run.
    rewrite (filter_ext
               (fun u => User.is_adherent u && str_in (User.pseudo u) usernames')
               (fun u => User.is_adherent u && str_in (User.pseudo u) usernames)).
    + now destruct (filter _ (users db)).
    + intros u. f_equal. apply str_in_ext. intros y. symmetry. apply H.
  - rewrite !check_constraints_run. cbn [users with_users].
    rewrite filter_filter_sub.
    + now destruct (filter _ (users db)).
    + intros u Hu. now apply andb_true_iff in Hu as [Hu _].
Qed.

Lemma check_constraints_scope_witness :
  result (check_constraints ["chess"; "john-doe"; "chess"] Sample.db)
  = result (check_constraints ["john-doe"; "chess"] Sample.db) /\
  result (check_constraints ["john-doe"; "chess"] Sample.db) = Ok tt.
Proof.
  split; [|reflexivity].
  apply (proj1 (check_constraints_scope ["john-doe"; "chess"] Sample.db)).
  intros x. simpl. tauto.
Defined.

(** ** Rooms and their occupants *)

Lemma evicted_or_same_refl (l : list User.t) : Forall2 evicted_or_same l l.
Proof. induction l; constructor; [now left | assumption]. Qed.



Lemma evicted_keeps_pks (l l' : list User.t) :
  Forall2 evicted_or_same l l' -> map User.pk l' = map User.pk l.
Proof.
  induction 1 as [|u v l l' [->| ->] _ IH]; simpl; congruence.
Qed.

Lemma evicted_keeps_pseudos (l l' : list User.t) :
  Forall2 evicted_or_same l l' -> map User.pseudo l' = map User.pseudo l.
Proof.
  induction 1 as [|u v l l' [->| ->] _ IH]; simpl; congruence.
Qed.

(** The shape of the accounts table after [force_move]. *)
Lemma force_move_shape (room : Room.t) (db : DB) :
  NoDup (map User.pk (users db)) ->
  match occupants room db with
  | [] => final_db (force_move room db) = db
  | first :: others =>
      exists l1 l2,
        users db = l1 ++ first :: l2 /\
        users (final_db (force_move room db))
        = l1 ++ User.set_room None first :: l2 /\
        User.is_adherent first && room_is (Room.pk room) first = true /\
        filter (fun u => User.is_adherent u && room_is (Room.pk room) u) l1 = [] /\
        filter (fun u => User.is_adherent u && room_is (Room.pk room) u) l2
        = others
  end.
Proof.
  intros Hnd. rewrite force_move_run.
  destruct (occupants room db) as [|first others] eqn:E; [reflexivity|].
  unfold occupants in E.
  apply filter_cons_split in E as (l1 & l2 & Hu & H1 & H2 & Hf).
  exists l1, l2. cbn [final_db fst snd users with_users].
  rewrite Hu in Hnd |- *. rewrite (map_replace_unique _ _ _ _ Hnd). auto.
Qed.

Lemma force_move_users (room : Room.t) (db : DB) :
  NoDup (map User.pk (users db)) ->
  Forall2 evicted_or_same (users db) (users (final_db (force_move room db))).
Proof.
  intros Hnd. pose proof (force_move_shape room db Hnd) as H.
  destruct (occupants room db) as [|first others].
  - rewrite H. apply evicted_or_same_refl.
  - destruct H as (l1 & l2 & -> & -> & _).
    apply Forall2_app; [apply evicted_or_same_refl|].
    constructor; [now right | apply evicted_or_same_refl].
Qed.

Lemma force_move_other_room (room other : Room.t) (db : DB) :
  NoDup (map User.pk (users db)) ->
  Room.pk other <> Room.pk room ->
  occupants other (final_db (force_move room db)) = occupants other db.
Proof.
  intros Hnd Hne. pose proof (force_move_shape room db Hnd) as H.
  destruct (occupants room db) as [|first others]; [now rewrite H|].
  destruct H as (l1 & l2 & Hu & Hu' & Hf & _).
  unfold occupants. rewrite Hu, Hu', !filter_app. f_equal.
  cbn [filter]. apply andb_true_iff in Hf as [Had Hroom].
  unfold room_is in *. cbn [User.set_room User.room].
  destruct (User.room first) as [k|]; [|discriminate].
  apply Z.eqb_eq in Hroom. subst k.
  rewrite (proj2 (Z.eqb_neq (Room.pk room) (Room.pk other)))
    by congruence.
  now rewrite !andb_false_r.
Qed.

Lemma force_move_this_room (room : Room.t) (db : DB) :
  NoDup (map User.pk (users db)) ->
  occupants room (final_db (force_move room db)) = tl (occupants room db).
Proof.
  intros Hnd. pose proof (force_move_shape room db Hnd) as H.
  destruct (occupants room db) as [|first others] eqn:E.
  - rewrite H, E. reflexivity.
  - destruct H as (l1 & l2 & _ & Hu' & _ & H1 & H2).
    unfold occupants. rewrite Hu', filter_app, H1. cbn [filter app tl].
    rewrite H2. unfold room_is. cbn [User.set_room User.room].
    now rewrite andb_false_r.
Qed.

Lemma create_account_accepted (env : Env) (school : School.t)
    (user : CSVUser.t) (db : DB) :
  result (create_account env school user db) = Ok tt ->
  integrity env (final_db (force_move (CSVUser.room user) db))
    (User.mk (next_pk (map User.pk
                         (users (final_db (force_move (CSVUser.room user) db)))))
             true (CSVUser.last_name user) (CSVUser.username user)
             (CSVUser.email user) (School.pk school) (COMMENT (settings env))
             STATE_ACTIVE EMAIL_STATE_VERIFIED (CSVUser.first_name user)
             (Some (Room.pk (CSVUser.room user))))
  = true.
Proof.
  intros H. unfold create_account in H.
  assert (Hfm : result (force_move (CSVUser.room user) db) = Ok tt).
  { rewrite force_move_run. now destruct (occupants _ db). }
  rewrite result_bind, Hfm, result_bind in H.
  unfold Adherent_create in H.
  match goal with
  | |- ?b = true => destruct b; [reflexivity | discriminate H]
  end.
Qed.

(** X4: with primary keys unique, a successful [create_account] leaves in the
    room of the user its former occupants but the first, followed by the new
    account; the occupants of every other room stay as they were. *)
Theorem create_account_occupants (env : Env) (school : School.t)
    (user : CSVUser.t) (db : DB) :
  NoDup (map User.pk (users db)) ->
  result (create_account env school user db) = Ok tt ->
  (exists new,
      occupants (CSVUser.room user) (final_db (create_account env school user db))
      = tl (occupants (CSVUser.room user) db) ++ [new] /\
      User.pseudo new = CSVUser.username user /\
      ~ In (User.pk new) (map User.pk (users db))) /\
  (forall other,
      Room.pk other <> Room.pk (CSVUser.room user) ->
      occupants other (final_db (create_account env school user db))
      = occupants other db).
Proof.
  intros Hnd H. destruct (create_account_Ok env school user db H) as [Hdb _].
  pose proof (evicted_keeps_pks _ _ (force_move_users (CSVUser.room user) db Hnd))
    as Hpks.
  split.
  - eexists. rewrite Hdb. unfold occupants at 1. cbn [users with_users].
    rewrite filter_app. fold (occupants (CSVUser.room user)
                                (final_db (force_move (CSVUser.room user) db))).
    rewrite (force_move_this_room _ _ Hnd). cbn [filter User.is_adherent].
    unfold room_is at 1. cbn [User.room]. rewrite Z.eqb_refl. cbn [andb].
    split; [reflexivity|]. split; [reflexivity|].
    cbn [User.pk]. rewrite Hpks. intros Hin.
    pose proof (next_pk_above _ _ Hin). lia.
  - intros other Hne. rewrite Hdb. unfold occupants at 1.
    cbn [users with_users]. rewrite filter_app.
    fold (occupants other (final_db (force_move (CSVUser.room user) db))).
    rewrite (force_move_other_room _ _ _ Hnd Hne). cbn [filter User.is_adherent].
    unfold room_is at 1. cbn [User.room].
    rewrite (proj2 (Z.eqb_neq (Room.pk (CSVUser.room user)) (Room.pk other)))
      by congruence.
    cbn [andb]. apply app_nil_r.
Qed.

Lemma sample_pks_unique : NoDup (map User.pk (users Sample.db)).
Proof. repeat constructor; simpl; intuition discriminate. Qed.

Lemma create_account_occupants_witness :
  exists new,
    occupants Sample.john.(CSVUser.room)
      (final_db (create_account Sample.env (School.mk 1 "ENS") Sample.john
                   Sample.db))
    = [Sample.second_occupant; new] /\
    User.pseudo new = "john-doe".
Proof.
  destruct (proj1 (create_account_occupants Sample.env (School.mk 1 "ENS")
                     Sample.john Sample.db sample_pks_unique eq_refl))
    as (new & H & Hp & _).
  exists new. split; [exact H | exact Hp].
Defined.

(** ** The accounts a successful import leaves *)

Lemma next_pk_fresh (pks : list Z) : ~ In (next_pk pks) pks.
Proof. intros H. pose proof (next_pk_above _ _ H). lia. Qed.

Lemma NoDup_snoc {A} (l : list A) (a : A) :
  NoDup l -> ~ In a l -> NoDup (l ++ [a]).
Proof.
  intros Hl Ha. apply NoDup_app; [exact Hl | repeat constructor; auto |].
  intros x Hx [<-|[]]. contradiction.
Qed.

(** One step of the accounts loop. *)
Lemma create_account_step (env : Env) (school : School.t) (user : CSVUser.t)
    (db : DB) :
  School.pk school = SCHOOL_ID (settings env) ->
  NoDup (map User.pk (users db)) ->
  result (create_account env school user db) = Ok tt ->
  exists old' new,
    users (final_db (create_account env school user db)) = old' ++ [new] /\
    Forall2 evicted_or_same (users db) old' /\
    account_of_row env user new /\
    User.room new = Some (Room.pk (CSVUser.room user)) /\
    integrity env (with_users old' (final_db (force_move (CSVUser.room user) db)))
              new = true /\
    NoDup (map User.pk (old' ++ [new])).
Proof.
  intros Hs Hnd H.
  destruct (create_account_Ok env school user db H) as [Hdb _].
  pose proof (create_account_accepted env school user db H) as Hacc.
  pose proof (force_move_users (CSVUser.room user) db Hnd) as Hev.
  set (moved := final_db (force_move (CSVUser.room user) db)) in *.
  eexists (users moved), _. rewrite Hdb. cbn [users with_users].
  split; [reflexivity|]. split; [exact Hev|]. split.
  { repeat split; try reflexivity; [exact Hs | now left]. }
  split; [reflexivity|]. split.
  { replace (with_users (users moved) moved) with moved by now destruct moved.
    exact Hacc. }
  rewrite map_app. cbn [map User.pk]. apply NoDup_snoc.
  - now rewrite (evicted_keeps_pks _ _ Hev).
  - apply next_pk_fresh.
Qed.


(** What a run that returns went through. *)
Lemma body_accounts_Ok (env : Env) (db : DB) :
  result (transaction_body env db) = Ok tt ->
  exists school payment us,
    result (School_get (SCHOOL_ID (settings env)) db) = Ok school /\
    result (Paiement_get (PAYMENT_METHOD (settings env)) db) = Ok payment /\
    result (read_file env db) = Ok us /\
    result (check_constraints (map CSVUser.username us) db) = Ok tt /\
    result (for_each us (create_account env school) db) = Ok tt /\
    users (final_db (transaction_body env db))
    = users (final_db (for_each us (create_account env school) db)).
Proof.
  intros H. rewrite transaction_body_unfold in *.
  apply bind_Ok_inv in H as (school & Hs & H & -> & _).
  rewrite readonly_School_get in *.
  apply bind_Ok_inv in H as (payment & Hp & H & -> & _).
  rewrite readonly_Paiement_get in *.
  apply bind_Ok_inv in H as (us & Hus & H & -> & _).
  rewrite readonly_read_file in *.
  apply bind_Ok_inv in H as ([] & _ & H & -> & _).
  rewrite readonly_print in *.
  apply bind_Ok_inv in H as ([] & _ & H & -> & _).
  rewrite readonly_print in *.
  apply bind_Ok_inv in H as ([] & Hck & H & -> & _).
  rewrite readonly_check_constraints in *.
  unfold after_check in *.
  apply bind_Ok_inv in H as ([] & _ & H & -> & _).
  rewrite readonly_print in *.
  apply bind_Ok_inv in H as ([] & _ & H & -> & _).
  rewrite readonly_print in *.
  apply bind_Ok_inv in H as ([] & Hloop & H & -> & _).
  exists school, payment, us.
  repeat (split; [assumption|]).
  unfold after_accounts.
  rewrite !final_db_bind. cbn [print emit result final_db fst snd].
  destruct (resets_loop env us
              (final_db (for_each us (create_account env school) db)))
    as [Hd _].
  destruct (result (for_each us (reset_password env) _)); [|now rewrite Hd].
  rewrite Hd.
  assert (Hkeep : maintains
            (fun d => users d
                      = users (final_db (for_each us (create_account env school) db)))
            (after_resets env payment us)).
  { apply maintains_after_resets. congruence. }
  now apply Hkeep.
Qed.



(** ** Usernames that collide *)

Lemma accounts_distinct (env : Env) (school : School.t) (us : list CSVUser.t) :
  pseudo_is_unique env ->
  School.pk school = SCHOOL_ID (settings env) ->
  forall db,
    NoDup (map User.pk (users db)) ->
    result (for_each us (create_account env school) db) = Ok tt ->
    NoDup (map CSVUser.username us) /\
    forall u r,
      In u us -> In r (users db) -> User.pseudo r <> CSVUser.username u.
Proof.
  intros Huniq Hs. induction us as [|u us IH]; intros db Hnd H.
  - split; [constructor | intros u r []].
  - cbn [for_each] in H.
    apply bind_Ok_inv in H as ([] & Hu & H & _).
    destruct (create_account_step env school u db Hs Hnd Hu)
      as (old1 & new1 & Hd1 & Hev1 & Hrow1 & _ & Hacc & Hnd1).
    rewrite <- Hd1 in Hnd1.
    destruct (IH _ Hnd1 H) as [Hnd2 Hfree]. rewrite Hd1 in Hfree.
    assert (Hp1 : User.pseudo new1 = CSVUser.username u)
      by (destruct Hrow1 as (_ & _ & _ & Hp & _); exact Hp).
    assert (Hold : forall r, In r (users db) ->
                             exists r', In r' old1 /\
                                        User.pseudo r' = User.pseudo r).
    { intros r Hr. apply (in_map User.pseudo) in Hr.
      rewrite <- (evicted_keeps_pseudos _ _ Hev1) in Hr.
      apply in_map_iff in Hr as (r' & E & Hr'). now exists r'. }
    split.
    + cbn [map]. constructor; [|exact Hnd2].
      intros Hin. apply in_map_iff in Hin as (u' & E & Hu').
      apply (Hfree u' new1 Hu').
      * apply in_or_app. right. now left.
      * congruence.
    + intros u' r [<-|Hu'] Hr.
      * destruct (Hold r Hr) as (r' & Hr' & E). rewrite <- E, <- Hp1.
        apply (Huniq _ _ Hacc). exact Hr'.
      * destruct (Hold r Hr) as (r' & Hr' & E). rewrite <- E.
        apply Hfree; [exact Hu' | apply in_or_app; now left].
Qed.

(** X6: when the database refuses an account whose pseudo is taken, a
    transaction that returns has read pairwise distinct usernames, none of
    them the pseudo of an account of the database, adherent or not.  So two
    rows with the same local part, or a row with the pseudo of a club, which
    the uniqueness check lets through, abort the import. *)
Theorem import_needs_distinct_usernames (env : Env) (db : DB) :
  pseudo_is_unique env ->
  NoDup (map User.pk (users db)) ->
  result (transaction env db) = Ok tt ->
  exists us,
    result (read_file env db) = Ok us /\
    NoDup (map CSVUser.username us) /\
    forall u r,
      In u us -> In r (users db) -> User.pseudo r <> CSVUser.username u.
Proof.
  intros Huniq Hnd H. unfold transaction in H. rewrite atomic_result in H.
  destruct (body_accounts_Ok env db H)
    as (school & payment & us & Hs & _ & Hus & _ & Hloop & _).
  apply School_get_Ok in Hs as [_ Hs].
  exists us. split; [exact Hus|].
  now apply (accounts_distinct env school us Huniq Hs db).
Qed.

Lemma unique_pseudo_sound (s : Settings)
    (csv : string -> Result (list (list string)))
    (c : string -> list (string * string) -> DB -> Result Response) :
  pseudo_is_unique (mkEnv s csv c Sample.unique_pseudo).
Proof.
  intros db u H r Hr E. cbn [integrity] in H. unfold Sample.unique_pseudo in H.
  apply negb_true_iff in H.
  assert (Ht : existsb (fun x => String.eqb (User.pseudo x) (User.pseudo u))
                       (users db) = true).
  { apply existsb_exists. exists r. split; [exact Hr|]. now apply String.eqb_eq. }
  congruence.
Qed.

Lemma import_needs_distinct_usernames_witness :
  exists us,
    result (read_file Sample.env Sample.db) = Ok us /\
    NoDup (map CSVUser.username us).
Proof.
  destruct (import_needs_distinct_usernames Sample.env Sample.db
              (unique_pseudo_sound _ _ _) sample_pks_unique eq_refl)
    as (us & Hus & Hnd & _).
  exists us. split; [exact Hus | exact Hnd].
Defined.

Example twin_rows_abort :
  result (check_constraints ["jane-roe"; "jane-roe"] Sample.db) = Ok tt /\
  result (transaction twin_env Sample.db) = Raise IntegrityError /\
  final_db (transaction twin_env Sample.db) = Sample.db.
Proof. repeat split. Qed.

(** ** The tables the import only reads *)

Lemma reference_tables_create_account (env : Env) (school : School.t)
    (u : CSVUser.t) (db0 : DB) :
  maintains (same_reference_tables db0) (create_account env school u).
Proof.
  unfold create_account.
  apply maintains_bind.
  { intros db H. rewrite force_move_run.
    destruct (occupants _ db); exact H. }
  intros _ _ _. apply maintains_bind;
    [|intros; apply maintains_readonly, readonly_ret].
  intros db H. unfold Adherent_create, final_db.
  destruct (integrity env db _); exact H.
Qed.

Lemma reference_tables_add_subscription (env : Env) (payment : Paiement.t)
    (u : CSVUser.t) (db0 : DB) :
  maintains (same_reference_tables db0) (add_subscription env payment u).
Proof.
  unfold add_subscription.
  apply maintains_bind;
    [apply maintains_readonly, readonly_User_get | intros].
  apply maintains_bind; [intros d Hd; exact Hd | intros].
  apply maintains_bind;
    [apply maintains_readonly, readonly_build_purchases | intros].
  apply maintains_bind; [intros d Hd; exact Hd | intros].
  apply maintains_bind; [|intros; intros d Hd; exact Hd].
  apply maintains_for_each. intros p d Hd.
  unfold Vente_save, final_db. destruct (Vente.pk _); exact Hd.
Qed.

Lemma reference_tables_body (env : Env) (db0 : DB) :
  maintains (same_reference_tables db0) (transaction_body env).
Proof.
  rewrite transaction_body_unfold.
  apply maintains_prologue. intros school payment us _.
  apply maintains_before_resets;
    [intro; apply reference_tables_create_account|].
  unfold after_resets.
  after_reading.
  apply maintains_bind; [|intros; apply maintains_readonly; auto with reads].
  destruct (ARTICLES (settings env));
    [apply maintains_readonly; auto with reads|].
  after_reading.
  apply maintains_bind; [|intros; apply maintains_readonly; auto with reads].
  apply maintains_for_each. intro u.
  apply reference_tables_add_subscription.
Qed.

(** X7: whatever happens, the import leaves the buildings, the rooms, the
    schools, the payment methods and the catalog of articles as they were;
    this is so of its body too, before any rollback. *)
Theorem reference_tables_untouched (env : Env) (db : DB) :
  same_reference_tables db (final_db (transaction_body env db)) /\
  same_reference_tables db (final_db (transaction env db)).
Proof.
  assert (H0 : same_reference_tables db db) by (repeat split).
  pose proof (reference_tables_body env db db H0) as Hbody.
  split; [exact Hbody|].
  unfold transaction.
  destruct (result (transaction_body env db)) as [[]|e] eqn:E.
  - now rewrite (atomic_Ok _ _ _ E).
  - now rewrite (atomic_Raise _ _ _ E).
Qed.

(** ** Errors of the first steps, and the file with no row *)


Lemma read_file_no_row (env : Env) (db : DB) :
  csv_reader env (PATH (settings env)) = Ok [] ->
  read_file env db = (Ok [], db, [EOpen (PATH (settings env))]).
Proof. intros H. unfold read_file, bind, emit, lift. now rewrite H. Qed.

Lemma School_get_run (pk : Z) (db : DB) :
  School_get pk db =
  (objects_get "School" (filter (fun s => Z.eqb (School.pk s) pk) (schools db)),
   db, [ESelect (QSchool pk)]).
Proof.
  unfold School_get, bind, select, lift.
  now destruct (objects_get _ _).
Qed.

Lemma Paiement_get_run (pk : Z) (db : DB) :
  Paiement_get pk db =
  (objects_get "Paiement"
     (filter (fun p => Z.eqb (Paiement.pk p) pk) (paiements db)),
   db, [ESelect (QPaiement pk)]).
Proof.
  unfold Paiement_get, bind, select, lift.
  now destruct (objects_get _ _).
Qed.

Lemma filter_none {A} (f : A -> bool) (l : list A) :
  (forall x, In x l -> f x = false) -> filter f l = [].
Proof.
  induction l as [|x l IH]; intros H; simpl; [reflexivity|].
  rewrite (H x (or_introl eq_refl)). apply IH. intros y Hy. apply H. now right.
Qed.




Lemma check_constraints_nil (db : DB) :
  check_constraints [] db = (Ok tt, db, [ESelect (QAdherentPseudoIn [])]).
Proof.
  rewrite check_constraints_run, filter_none; [reflexivity|].
  intros u _. apply andb_false_r.
Qed.

Lemma after_check_nil (env : Env) (school : School.t) (payment : Paiement.t)
    (db : DB) :
  result (after_check env school payment [] db) = Ok tt /\
  final_db (after_check env school payment [] db) = db /\
  Forall (fun e => exists line, e = EPrint line)
         (trace (after_check env school payment [] db)).
Proof.
  unfold after_check, after_accounts, after_resets.
  destruct (ARTICLES (settings env)); cbn;
    repeat split; repeat constructor; eexists; reflexivity.
Qed.

(** X9: a file with no row is imported without error when the school and
    the payment method are found: the transaction returns, the database is
    what it was, no row was written and no request was sent, whatever
    [ARTICLES] holds. *)
Theorem empty_file_imports_nothing (env : Env) (db : DB)
    (school : School.t) (payment : Paiement.t) :
  csv_reader env (PATH (settings env)) = Ok [] ->
  result (School_get (SCHOOL_ID (settings env)) db) = Ok school ->
  result (Paiement_get (PAYMENT_METHOD (settings env)) db) = Ok payment ->
  result (transaction env db) = Ok tt /\
  final_db (transaction env db) = db /\
  Forall no_write (trace (transaction env db)) /\
  posts_of (trace (transaction env db)) = [].
Proof.
  intros Hcsv Hs Hp.
  destruct (after_check_nil env school payment db) as (Hr & Hd & Ht).
  pose proof (read_file_no_row env db Hcsv) as Hrf.
  pose proof (check_constraints_nil db) as Hck.
  assert (Hres : result (transaction_body env db) = Ok tt).
  { rewrite transaction_body_unfold.
    rewrite result_bind, Hs, readonly_School_get, result_bind, Hp.
    rewrite readonly_Paiement_get, result_bind, Hrf.
    cbn [result final_db fst snd map].
    rewrite result_bind. cbn [print emit result final_db fst snd].
    rewrite result_bind. cbn [print emit result final_db fst snd].
    rewrite result_bind, Hck. exact Hr. }
  assert (Hdb : final_db (transaction_body env db) = db).
  { rewrite transaction_body_unfold.
    rewrite final_db_bind, Hs, readonly_School_get, final_db_bind, Hp.
    rewrite readonly_Paiement_get, final_db_bind, Hrf.
    cbn [result final_db fst snd map].
    rewrite final_db_bind. cbn [print emit result final_db fst snd].
    rewrite final_db_bind. cbn [print emit result final_db fst snd].
    rewrite final_db_bind, Hck. exact Hd. }
  assert (Hquiet : Forall (fun e => no_write e /\ quiet e)
                          (trace (transaction_body env db))).
  { rewrite transaction_body_unfold.
    rewrite trace_bind, Hs, readonly_School_get, trace_bind, Hp.
    rewrite readonly_Paiement_get, trace_bind, Hrf.
    cbn [result final_db trace fst snd map].
    rewrite trace_bind. cbn [print emit result final_db trace fst snd].
    rewrite trace_bind. cbn [print emit result final_db trace fst snd].
    rewrite trace_bind, Hck. cbn [result final_db trace fst snd].
    rewrite School_get_run, Paiement_get_run. cbn [trace snd app].
    repeat (constructor; [now split|]).
    eapply Forall_impl; [|exact Ht]. intros e (line & ->). now split. }
  unfold transaction. rewrite atomic_result, atomic_trace, (atomic_Ok _ _ _ Hres).
  split; [exact Hres|]. split; [exact Hdb|]. split.
  - eapply Forall_impl; [|exact Hquiet]. now intros e [H _].
  - apply posts_of_quiet.
    eapply Forall_impl; [|exact Hquiet]. now intros e [_ H].
Qed.

Lemma empty_file_witness :
  result (transaction empty_env Sample.db) = Ok tt /\
  final_db (transaction empty_env Sample.db) = Sample.db.
Proof.
  destruct (empty_file_imports_nothing empty_env Sample.db
              (School.mk 1 "ENS") (Paiement.mk 1 "Cheque")
              eq_refl eq_refl eq_refl) as (H1 & H2 & _).
  split; [exact H1 | exact H2].
Defined.

(** ** What is printed *)

Lemma bind_assoc {A B C} (m : M A) (f : A -> M B) (g : B -> M C) (db : DB) :
  bind (bind m f) g db = bind m (fun a => bind (f a) g) db.
Proof.
  unfold bind. destruct (m db) as [[[a|e] d1] t1]; [|reflexivity].
  destruct (f a d1) as [[[b|e] d2] t2]; [|reflexivity].
  destruct (g b d2) as [[r d3] t3]. now rewrite app_assoc.
Qed.

Lemma prints_of_app (t1 t2 : list Event) :
  prints_of (t1 ++ t2) = prints_of t1 ++ prints_of t2.
Proof. apply flat_map_app. Qed.

Lemma prints_of_silent (t : list Event) : Forall silent t -> prints_of t = [].
Proof.
  induction 1 as [|e t He _ IH]; [reflexivity|].
  simpl. rewrite IH. destruct e; [contradiction | reflexivity ..].
Qed.

Lemma In_prints_of (line : string) (t : list Event) :
  In (EPrint line) t <-> In line (prints_of t).
Proof.
  unfold prints_of. rewrite in_flat_map. split.
  - intros H. exists (EPrint line). split; [exact H | now left].
  - intros (e & He & Hl). destruct e; try contradiction.
    destruct Hl as [<-|[]]. exact He.
Qed.

Lemma printed_silent_bind (L : list string) {A B} (m : M A) (k : A -> M B)
    (db : DB) :
  0 < List.length L ->
  emits silent m ->
  (forall a, result (m db) = Ok a -> printed L (k a (final_db (m db)))) ->
  printed L (bind m k db).
Proof.
  intros HL Hm Hk. unfold printed.
  rewrite result_bind, trace_bind.
  destruct (result (m db)) as [a|e].
  - rewrite prints_of_app, (prints_of_silent _ (Hm db)). now apply Hk.
  - right. exists e, 0. rewrite (prints_of_silent _ (Hm db)). auto.
Qed.

Lemma printed_print (line : string) (L : list string) {B} (k : unit -> M B)
    (db : DB) :
  printed L (k tt db) -> printed (line :: L) (bind (print line) k db).
Proof.
  unfold printed. rewrite result_bind, trace_bind.
  cbn [print emit result final_db trace fst snd].
  intros [(a & Hr & Hp)|(e & n & Hr & Hn & Hp)].
  - left. exists a. split; [exact Hr|]. cbn [app prints_of flat_map].
    fold (prints_of (trace (k tt db))). now rewrite Hp.
  - right. exists e, (S n). split; [exact Hr|]. split; [cbn; lia|].
    cbn [app prints_of flat_map firstn].
    fold (prints_of (trace (k tt db))). now rewrite Hp.
Qed.

Lemma printed_last (line : string) (db : DB) : printed [line] (print line db).
Proof. left. exists tt. split; reflexivity. Qed.

Lemma silent_create_accounts (env : Env) (school : School.t)
    (us : list CSVUser.t) :
  emits silent (for_each us (create_account env school)).
Proof.
  apply emits_for_each. intro u. apply emits_create_account; intros; exact I.
Qed.

Lemma silent_resets (env : Env) (us : list CSVUser.t) :
  emits silent (for_each us (reset_password env)).
Proof.
  apply emits_for_each. intro u. apply emits_reset_password. intros; exact I.
Qed.

Lemma silent_subscriptions (env : Env) (payment : Paiement.t)
    (us : list CSVUser.t) :
  emits silent (for_each us (add_subscription env payment)).
Proof.
  apply emits_for_each. intro u. apply emits_add_subscription.
  intros [] He; try discriminate He; exact I.
Qed.

Lemma printed_after_resets (env : Env) (payment : Paiement.t)
    (us : list CSVUser.t) (db : DB) :
  printed ("Passwords reset"
           :: match ARTICLES (settings env) with
              | [] => []
              | _ :: _ => ["Adding subscriptions"; "Subscriptions created"]
              end
           ++ ["All went well"])
          (after_resets env payment us db).
Proof.
  unfold after_resets. apply printed_print.
  destruct (ARTICLES (settings env)) as [|a l].
  - apply printed_silent_bind; [cbn; lia | apply emits_ret | intros _ _].
    apply printed_last.
  - rewrite bind_assoc. cbn [app]. apply printed_print.
    rewrite bind_assoc.
    apply printed_silent_bind;
      [cbn; lia | apply silent_subscriptions | intros _ _].
    apply printed_print, printed_last.
Qed.

Lemma printed_after_check (env : Env) (school : School.t) (payment : Paiement.t)
    (us : list CSVUser.t) (db : DB) :
  printed (skipn 2 (lines_of_a_full_run env (List.length us)))
          (after_check env school payment us db).
Proof.
  unfold lines_of_a_full_run. cbn [skipn app].
  unfold after_check. apply printed_print, printed_print.
  apply printed_silent_bind;
    [cbn; lia | apply silent_create_accounts | intros _ _].
  unfold after_accounts. apply printed_print, printed_print.
  apply printed_silent_bind; [cbn; lia | apply silent_resets | intros _ _].
  apply printed_after_resets.
Qed.

Lemma printed_transaction_body (env : Env) (db : DB) :
  match result (read_file env db) with
  | Ok us =>
      printed (lines_of_a_full_run env (List.length us))
              (transaction_body env db)
  | Raise _ =>
      prints_of (trace (transaction_body env db)) = [] /\
      exists e, result (transaction_body env db) = Raise e
  end.
Proof.
  assert (Hparse : emits silent (read_file env))
    by (apply emits_read_file; intros [] He; try discriminate He; exact I).
  assert (Hlen : forall n, 0 < List.length (lines_of_a_full_run env n))
    by (intro n; unfold lines_of_a_full_run; cbn; lia).
  rewrite transaction_body_unfold.
  destruct (result (read_file env db)) as [us|e] eqn:E.
  - apply printed_silent_bind;
      [apply Hlen | now apply emits_get | intros school _].
    rewrite readonly_School_get.
    apply printed_silent_bind;
      [apply Hlen | now apply emits_get | intros payment _].
    rewrite readonly_Paiement_get.
    apply printed_silent_bind; [apply Hlen | exact Hparse | intros us' Hus'].
    rewrite E in Hus'. injection Hus' as <-. rewrite readonly_read_file.
    change (lines_of_a_full_run env (List.length us))
      with ((str_of_nat (List.length us) ++ " users detected")%string
            :: "Verifying that no conflict occurs for usernames"
            :: skipn 2 (lines_of_a_full_run env (List.length us))).
    apply printed_print, printed_print.
    apply printed_silent_bind;
      [unfold lines_of_a_full_run; cbn; lia
      | now apply emits_check_constraints | intros _ _].
    apply printed_after_check.
  - split.
    + assert (Hs : prints_of (trace (School_get (SCHOOL_ID (settings env)) db))
                   = [])
        by (apply prints_of_silent, emits_get; exact I).
      assert (Hp : prints_of (trace (Paiement_get
                                       (PAYMENT_METHOD (settings env)) db))
                   = [])
        by (apply prints_of_silent, emits_get; exact I).
      rewrite trace_bind.
      destruct (result (School_get _ db)) as [school|e1]; [|exact Hs].
      rewrite readonly_School_get, trace_bind.
      destruct (result (Paiement_get _ db)) as [payment|e2];
        [|now rewrite prints_of_app, Hs, Hp].
      rewrite readonly_Paiement_get, trace_bind, E.
      now rewrite !prints_of_app, Hs, Hp, (prints_of_silent _ (Hparse db)).
    + rewrite <- transaction_body_unfold.
      exact (read_file_Raise_body env db e E).
Qed.

Lemma count_line_is_not_the_last (n : nat) :
  (str_of_nat n ++ " users detected")%string <> "All went well".
Proof.
  intros H. apply (f_equal String.length) in H.
  rewrite string_length_append in H. cbn in H. lia.
Qed.

Lemma last_line_only_last (env : Env) (n k : nat) :
  k < List.length (lines_of_a_full_run env n) ->
  ~ In "All went well" (firstn k (lines_of_a_full_run env n)).
Proof.
  pose proof (count_line_is_not_the_last n) as Hc.
  unfold lines_of_a_full_run.
  destruct (ARTICLES (settings env)) as [|a l]; cbn [app List.length];
    intros Hk Hin.
  - do 8 (destruct k as [|k]; [cbn in Hin; intuition congruence|]). lia.
  - do 10 (destruct k as [|k]; [cbn in Hin; intuition congruence|]). lia.
Qed.

(** X10: ["All went well"] is printed exactly when the transaction returns;
    and a transaction that returns has printed, in order, the count of users
    read, the lines announcing and closing each step (those about
    subscriptions only when [ARTICLES] is not empty) and, last, that line. *)
Theorem all_went_well_iff_returned (env : Env) (db : DB) :
  (In (EPrint "All went well") (trace (transaction env db)) <->
   result (transaction env db) = Ok tt) /\
  (result (transaction env db) = Ok tt ->
   exists us,
     result (read_file env db) = Ok us /\
     prints_of (trace (transaction env db))
     = lines_of_a_full_run env (List.length us)).
Proof.
  pose proof (printed_transaction_body env db) as H.
  unfold transaction. rewrite atomic_trace, atomic_result.
  rewrite In_prints_of.
  destruct (result (read_file env db)) as [us|e0].
  - destruct H as [([] & Hr & Hp)|(e & k & Hr & Hk & Hp)].
    + split; [|intros _; now exists us].
      split; [intros _; exact Hr|]. intros _. rewrite Hp.
      unfold lines_of_a_full_run. rewrite !app_assoc.
      apply in_or_app. right. now left.
    + split; [|intros Hok; congruence].
      split; [|intros Hok; congruence].
      rewrite Hp. intros Hin. exfalso.
      now apply (last_line_only_last env (List.length us) k Hk).
  - destruct H as [Hp [e He]]. rewrite Hp, He.
    split; [|discriminate]. split; [intros [] | discriminate].
Qed.

Lemma all_went_well_witness :
  In (EPrint "All went well") (trace (transaction Sample.env Sample.db)) /\
  prints_of (trace (transaction Sample.env Sample.db))
  = [ "2 users detected";
      "Verifying that no conflict occurs for usernames";
      "Usernames OK"; "Creating accounts"; "Accountts created";
      "Reseting password"; "Passwords reset"; "Adding subscriptions";
      "Subscriptions created"; "All went well" ] /\
  ~ In (EPrint "All went well") (trace (transaction Sample.clash_env Sample.db)).
Proof.
  destruct (all_went_well_iff_returned Sample.env Sample.db) as [Hiff Hlines].
  split; [now apply Hiff|]. split.
  - destruct (Hlines eq_refl) as (us & Hus & ->).
    injection Hus as <-. reflexivity.
  - intros Hin.
    apply (proj1 (all_went_well_iff_returned Sample.clash_env Sample.db)) in Hin.
    discriminate Hin.
Defined.

(** ** Importing the same file again *)

Lemma Building_get_run (name : string) (db : DB) :
  Building_get name db =
  (objects_get "Building"
     (filter (fun b => String.eqb (Building.name b) name) (buildings db)),
   db, [ESelect (QBuilding name)]).
Proof.
  unfold Building_get, bind, select, lift. now destruct (objects_get _ _).
Qed.

Lemma Room_get_run (b : Building.t) (name : string) (db : DB) :
  Room_get b name db =
  (objects_get "Room"
     (filter (fun r => Z.eqb (Room.building r) (Building.pk b)
                       && String.eqb (Room.name r) name) (rooms db)),
   db, [ESelect (QRoom (Building.pk b) name)]).
Proof.
  unfold Room_get, bind, select, lift. now destruct (objects_get _ _).
Qed.






Example second_import_message :
  result (transaction Sample.env (final_db (transaction Sample.env Sample.db)))
  = Raise (Exception
             "The following usernames are not unique : john-doe, jane-m-roe").
Proof. reflexivity. Qed.

(** ** What a rollback does not undo *)

Lemma closed_bind_early (us : list CSVUser.t) {A B} (m : M A) (k : A -> M B)
    (db : DB) :
  emits before_resets_close m ->
  (forall a, result (m db) = Ok a -> resets_closed us (k a (final_db (m db)))) ->
  resets_closed us (bind m k db).
Proof.
  intros Hm Hk. unfold resets_closed. rewrite trace_bind, result_bind.
  destruct (result (m db)) as [a|e].
  - destruct (Hk a eq_refl) as [H|[[H He]|H]].
    + left. apply Forall_app. split; [apply Hm | exact H].
    + right. left. split; [|exact He].
      apply Forall_app. split; [|exact H].
      eapply Forall_impl; [|apply Hm]. now intros x [_ Hx].
    + right. right. rewrite posts_of_app, H.
      rewrite posts_of_quiet; [reflexivity|].
      eapply Forall_impl; [|apply Hm]. now intros x [Hx _].
  - right. left. split; [|now exists e].
    eapply Forall_impl; [|apply Hm]. now intros x [_ Hx].
Qed.

Lemma early_select (q : Query) : before_resets_close (ESelect q).
Proof. split; [reflexivity | discriminate]. Qed.

Lemma early_print (line : string) :
  line <> "Passwords reset" -> before_resets_close (EPrint line).
Proof. intros H. split; [reflexivity | congruence]. Qed.

Lemma count_line_is_not_the_reset_line (n : nat) :
  (str_of_nat n ++ " users detected")%string <> "Passwords reset".
Proof.
  intros H. pose proof (f_equal String.length H) as Hl.
  rewrite string_length_append in Hl. cbn in Hl.
  destruct (str_of_nat n) as [|c s]; [discriminate H | cbn in Hl; lia].
Qed.

Lemma closed_after_check (env : Env) (school : School.t) (payment : Paiement.t)
    (us : list CSVUser.t) (db : DB) :
  resets_closed us (after_check env school payment us db).
Proof.
  unfold after_check.
  apply closed_bind_early;
    [apply emits_print, early_print; discriminate | intros _ _].
  apply closed_bind_early;
    [apply emits_print, early_print; discriminate | intros _ _].
  apply closed_bind_early; [|intros _ _].
  { apply emits_for_each. intro u. apply emits_create_account.
    - intro. apply early_select.
    - intro. split; [reflexivity | discriminate].
    - intros. split; [reflexivity | discriminate]. }
  unfold after_accounts.
  apply closed_bind_early;
    [apply emits_print, early_print; discriminate | intros _ _].
  apply closed_bind_early;
    [apply emits_print, early_print; discriminate | intros _ _].
  cbn [print emit final_db fst snd].
  set (d := final_db (for_each us (create_account env school) db)).
  unfold resets_closed. rewrite trace_bind, result_bind.
  destruct (resets_loop env us d) as [Hd [[Hr Hp]|(e & k & Hr & Hp)]].
  - right. right. rewrite Hr, posts_of_app, Hp.
    rewrite (posts_of_quiet _ (quiet_after_resets _ _ _ _)).
    apply app_nil_r.
  - right. left. rewrite Hr. split; [|now exists e].
    pose proof (emits_for_each (fun e => e <> EPrint "Passwords reset") us
                  (reset_password env)) as Hloop.
    apply Hloop. intro u. apply emits_reset_password. intros; discriminate.
Qed.

Lemma closed_transaction_body (env : Env) (db : DB) :
  match result (read_file env db) with
  | Ok us => resets_closed us (transaction_body env db)
  | Raise _ =>
      Forall (fun e => e <> EPrint "Passwords reset")
             (trace (transaction_body env db))
  end.
Proof.
  assert (Hparse : emits before_resets_close (read_file env)).
  { apply emits_read_file. intros [] He; try discriminate He.
    - split; [reflexivity | discriminate].
    - apply early_select. }
  destruct (result (read_file env db)) as [us|e] eqn:E.
  - rewrite transaction_body_unfold.
    apply closed_bind_early;
      [apply emits_get, early_select | intros school _].
    rewrite readonly_School_get.
    apply closed_bind_early;
      [apply emits_get, early_select | intros payment _].
    rewrite readonly_Paiement_get.
    apply closed_bind_early; [exact Hparse | intros us' Hus'].
    rewrite E in Hus'. injection Hus' as <-. rewrite readonly_read_file.
    apply closed_bind_early;
      [apply emits_print, early_print, count_line_is_not_the_reset_line
      | intros _ _].
    apply closed_bind_early;
      [apply emits_print, early_print; discriminate | intros _ _].
    apply closed_bind_early;
      [apply emits_check_constraints, early_select | intros _ _].
    apply closed_after_check.
  - rewrite transaction_body_unfold.
    assert (Hs : Forall (fun e => e <> EPrint "Passwords reset")
                        (trace (School_get (SCHOOL_ID (settings env)) db)))
      by (apply (emits_get (fun e => e <> EPrint "Passwords reset"));
          discriminate).
    assert (Hp : Forall (fun e => e <> EPrint "Passwords reset")
                        (trace (Paiement_get (PAYMENT_METHOD (settings env)) db)))
      by (apply (emits_get (fun e => e <> EPrint "Passwords reset"));
          discriminate).
    rewrite trace_bind.
    destruct (result (School_get _ db)) as [school|e1]; [|exact Hs].
    rewrite readonly_School_get, trace_bind.
    destruct (result (Paiement_get _ db)) as [payment|e2];
      [|apply Forall_app; now split].
    rewrite readonly_Paiement_get, trace_bind, E.
    apply Forall_app. split; [exact Hs|]. apply Forall_app. split; [exact Hp|].
    eapply Forall_impl; [|apply Hparse]. now intros x [_ Hx].
Qed.

(** X12: the reset requests are not undone by a rollback.  Once
    ["Passwords reset"] is printed, every parsed user has been sent a
    request, one each, in order, whether the transaction then returns or
    raises, as it does when [ARTICLES] names an article the catalog does not
    have, and leaves the database as it was. *)
Theorem requests_outlive_rollback (env : Env) (db : DB) :
  In (EPrint "Passwords reset") (trace (transaction env db)) ->
  exists us,
    result (read_file env db) = Ok us /\
    posts_of (trace (transaction env db)) = map reset_request us.
Proof.
  unfold transaction. rewrite atomic_trace. intros Hin.
  pose proof (closed_transaction_body env db) as H.
  destruct (result (read_file env db)) as [us|e].
  - exists us. split; [reflexivity|].
    destruct H as [H|[[H _]|H]]; [| |exact H]; exfalso.
    + rewrite Forall_forall in H. now destruct (H _ Hin) as [_ Hne].
    + rewrite Forall_forall in H. now apply (H _ Hin).
  - exfalso. rewrite Forall_forall in H. now apply (H _ Hin).
Qed.

Lemma requests_outlive_rollback_witness :
  result (transaction no_article_in_catalog_env Sample.db)
  = Raise (DoesNotExist "Article") /\
  final_db (transaction no_article_in_catalog_env Sample.db) = Sample.db /\
  posts_of (trace (transaction no_article_in_catalog_env Sample.db))
  = [reset_request Sample.john; reset_request Sample.jane].
Proof.
  split; [reflexivity|]. split; [reflexivity|].
  destruct (requests_outlive_rollback no_article_in_catalog_env Sample.db)
    as (us & Hus & ->).
  - vm_compute. repeat (first [left; reflexivity | right]).
  - injection Hus as <-. reflexivity.
Defined.

(** ** Looking a room up *)

Lemma objects_get_Ok_iff {R} (model : string) (l : list R) (r : R) :
  objects_get model l = Ok r <-> l = [r].
Proof.
  split; [apply objects_get_In | intros ->; reflexivity].
Qed.

(** X13: a room string [<Building> <RoomName>] resolves to a room exactly
    when one building, and only one, bears the name before the first space
    and one room, and only one, of that building bears the name after it; the
    room found is that one.  When no building bears the name, the lookup
    raises [DoesNotExist] for the building, whatever rooms there are. *)
Theorem get_room_found_iff (b n : string) (db : DB) :
  PyStr.mem " " b = false ->
  (forall r,
      result (get_room (b ++ " " ++ n) db) = Ok r <->
      exists building,
        filter (fun x => String.eqb (Building.name x) b) (buildings db)
        = [building] /\
        filter (fun x => Z.eqb (Room.building x) (Building.pk building)
                         && String.eqb (Room.name x) n) (rooms db)
        = [r]) /\
  ((forall x, In x (buildings db) -> Building.name x <> b) ->
   result (get_room (b ++ " " ++ n) db) = Raise (DoesNotExist "Building")).
Proof.
  intros Hb. rewrite (get_room_split b n db Hb), result_bind, Building_get_run.
  cbn [result final_db fst snd]. split.
  - intros r. split.
    + destruct (objects_get "Building" _) as [bd|e] eqn:E; [|discriminate].
      rewrite Room_get_run. cbn [result fst]. intros H.
      exists bd. split; [now apply objects_get_Ok_iff in E|].
      now apply objects_get_Ok_iff in H.
    + intros (bd & H1 & H2). rewrite H1. cbn [objects_get].
      rewrite Room_get_run. cbn [result fst]. now rewrite H2.
  - intros Hnone. rewrite filter_none; [reflexivity|].
    intros x Hx. apply String.eqb_neq. now apply Hnone.
Qed.

Lemma get_room_found_witness :
  result (get_room "B 101" Sample.db) = Ok (Room.mk 12 2 "101") /\
  result (get_room "C 101" Sample.db) = Raise (DoesNotExist "Building").
Proof.
  destruct (get_room_found_iff "B" "101" Sample.db eq_refl) as [Hiff _].
  destruct (get_room_found_iff "C" "101" Sample.db eq_refl) as [_ Hnone].
  split.
  - apply Hiff. exists (Building.mk 2 "B"). split; reflexivity.
  - apply Hnone. intros x [<-|[<-|[]]]; discriminate.
Defined.

(** ** The line items built for an invoice *)



